(** * headless-markets: bonding-curve token and collaboration service

    A shallow embedding of the two stateful cores of the repository.

    - [BondingCurve]: the Solidity contract [BondingCurveToken]
      (contracts/core/BondingCurve.sol).  Every external function is a
      transaction: it either commits a new storage and a list of observable
      effects, or reverts and leaves the storage untouched.  [uint256] values
      are integers with the checked arithmetic of Solidity 0.8 written out
      (overflow and underflow panic with code 0x11, division by zero with
      0x12).  Code outside the contract is an input of the call: whether the
      recipient of an ETH transfer accepts it, and what the Uniswap calls of
      [_graduate] do.  Transactions are atomic; [buy] and [sell] are
      nonReentrant, and re-entering the other functions from a callee is not
      modelled.  Of the inherited ERC20 only what the contract uses is
      modelled (supply, balances, mint, burn, transfer); allowances are not.

    - [CollaborationService]: the TypeScript service of the Vendure plugin
      (collaboration.service.ts) with its entities.  The repositories are
      tables of rows in insertion order; findOne returns the first row that
      matches, save overwrites the row with the entity's id.  The methods run
      without a surrounding database transaction, so a method that throws
      keeps the writes it made before the throw.  The on-chain event handlers
      and the GraphQL mutations reach the tables only through these methods.

    [CurveFacts] and [CollaborationFacts] hold the lemmas and the theorems
    for the properties C1 to C10 of the specification; [CurveExtras] and
    [ServiceExtras] hold further properties of the same code: conservation
    of ETH and tokens, what the remaining functions return, and the
    invariants of the stored rows. *)

From Stdlib Require Import ZArith QArith List Lia String.
From stdpp Require Import gmap strings list.

Open Scope string_scope.
Open Scope list_scope.
Open Scope Z_scope.

(* ===================================================================== *)
(** * The bonding-curve contract                                          *)
(* ===================================================================== *)

Module BondingCurve.

Definition address := Z.

Definition MAX_UINT256 : Z := 2 ^ 256 - 1.
Definition ether : Z := 10 ^ 18.

(** ** Failing transactions *)

Inductive Failure :=
| Revert (reason : string)     (* require(cond, reason) with cond false *)
| Panic (code : Z).            (* 0x11 arithmetic overflow, 0x12 division by zero *)

Inductive Result (A : Type) :=
| Ok (a : A)
| Err (f : Failure).
Arguments Ok {A} a.
Arguments Err {A} f.

Definition bind {A B} (m : Result A) (k : A -> Result B) : Result B :=
  match m with
  | Ok a => k a
  | Err f => Err f
  end.

Notation "x <- m ;; k" := (bind m (fun x => k))
  (at level 100, m at next level, right associativity).
Notation "m ;;; k" := (bind m (fun _ => k))
  (at level 100, right associativity).

Definition require (cond : bool) (reason : string) : Result unit :=
  if cond then Ok tt else Err (Revert reason).

(** Solidity ^0.8 arithmetic on uint256. *)
Definition add (a b : Z) : Result Z :=
  if a + b <=? MAX_UINT256 then Ok (a + b) else Err (Panic 17).
Definition sub (a b : Z) : Result Z :=
  if b <=? a then Ok (a - b) else Err (Panic 17).
Definition mul (a b : Z) : Result Z :=
  if a * b <=? MAX_UINT256 then Ok (a * b) else Err (Panic 17).
Definition div (a b : Z) : Result Z :=
  if b =? 0 then Err (Panic 18) else Ok (a / b).

(** ** Constants *)

Definition GRADUATION_THRESHOLD : Z := 10 * ether.
Definition INITIAL_PRICE : Z := 10 ^ 13.          (* 0.00001 ether *)
Definition PRICE_INCREMENT : Z := 1.
Definition PLATFORM_FEE_BPS : Z := 3000.
Definition AGENT_FEE_BPS : Z := 1000.
Definition LIQUIDITY_BPS : Z := 6000.
Definition BPS_DIVISOR : Z := 10000.

(** ** Storage *)

Record State := mkState {
  this : address;                        (* address(this) *)
  totalSupply : Z;                       (* ERC20 _totalSupply *)
  balanceOf : gmap Z Z;                  (* ERC20 _balances, absent = 0 *)
  platform : address;                    (* feeRecipients.platform *)
  quorumMembers : list address;
  isQuorumMember : gmap Z bool;          (* absent = false *)
  totalETHRaised : Z;
  liquidityReserve : Z;
  graduated : bool;
  uniswapV2Router : address;
  uniswapV2Pair : address;
  proposalId : Z;
  ethBalance : Z                         (* address(this).balance *)
}.

Definition set_supply (v : Z) (b : gmap Z Z) (s : State) : State :=
  mkState (this s) v b (platform s) (quorumMembers s) (isQuorumMember s)
          (totalETHRaised s) (liquidityReserve s) (graduated s)
          (uniswapV2Router s) (uniswapV2Pair s) (proposalId s) (ethBalance s).

Definition set_liquidityReserve (v : Z) (s : State) : State :=
  mkState (this s) (totalSupply s) (balanceOf s) (platform s) (quorumMembers s)
          (isQuorumMember s) (totalETHRaised s) v (graduated s)
          (uniswapV2Router s) (uniswapV2Pair s) (proposalId s) (ethBalance s).

Definition set_totalETHRaised (v : Z) (s : State) : State :=
  mkState (this s) (totalSupply s) (balanceOf s) (platform s) (quorumMembers s)
          (isQuorumMember s) v (liquidityReserve s) (graduated s)
          (uniswapV2Router s) (uniswapV2Pair s) (proposalId s) (ethBalance s).

Definition set_graduated (v : bool) (s : State) : State :=
  mkState (this s) (totalSupply s) (balanceOf s) (platform s) (quorumMembers s)
          (isQuorumMember s) (totalETHRaised s) (liquidityReserve s) v
          (uniswapV2Router s) (uniswapV2Pair s) (proposalId s) (ethBalance s).

Definition set_uniswapV2Pair (v : address) (s : State) : State :=
  mkState (this s) (totalSupply s) (balanceOf s) (platform s) (quorumMembers s)
          (isQuorumMember s) (totalETHRaised s) (liquidityReserve s)
          (graduated s) (uniswapV2Router s) v (proposalId s) (ethBalance s).

Definition set_ethBalance (v : Z) (s : State) : State :=
  mkState (this s) (totalSupply s) (balanceOf s) (platform s) (quorumMembers s)
          (isQuorumMember s) (totalETHRaised s) (liquidityReserve s)
          (graduated s) (uniswapV2Router s) (uniswapV2Pair s) (proposalId s) v.

Definition balance (s : State) (a : address) : Z :=
  default 0 (balanceOf s !! a).

Definition member (s : State) (a : address) : bool :=
  default false (isQuorumMember s !! a).

(** ** Observable effects of a transaction *)

Inductive Event :=
| TokensPurchased (buyer : address) (ethAmount tokenAmount newPrice : Z)
| TokensSold (seller : address) (tokenAmount ethAmount newPrice : Z)
| Graduated (uniswapPair : address) (liquidityETH liquidityTokens : Z)
| FeesDistributed (platformFee agentFee liquidityAmount : Z).

(** ETH leaving the contract, tagged by the statement that sends it. *)
Inductive Payment :=
| PlatformFeePaid (to : address) (amount : Z)   (* buy: feeRecipients.platform.call *)
| SalePaid (to : address) (amount : Z)          (* sell: msg.sender.call *)
| AgentFeePaid (to : address) (amount : Z)      (* claimAgentFees: msg.sender.call *)
| LiquidityAdded (amount : Z).                  (* _graduate: addLiquidityETH *)

Inductive Effect :=
| Emit (e : Event)
| Pay (p : Payment)
| Deposit (amount : Z).     (* ETH taken in by receive() *)

(** ** Constructor *)

(** [self] is the address the contract is deployed at and [initialBalance]
    the ETH that address already holds; the ERC20 constructor mints nothing. *)
Definition constructor (self : address) (initialBalance : Z)
    (_quorumMembers : list address)
    (_platformFeeRecipient _uniswapV2Router : address) (_proposalId : Z)
    : Result State :=
  let n := Z.of_nat (length _quorumMembers) in
  require ((3 <=? n) && (n <=? 5)) "Invalid quorum size" ;;;
  require (negb (_platformFeeRecipient =? 0)) "Invalid platform address" ;;;
  require (negb (_uniswapV2Router =? 0)) "Invalid router address" ;;;
  Ok (mkState self 0 ∅ _platformFeeRecipient _quorumMembers
        (foldl (fun m a => <[a := true]> m) ∅ _quorumMembers)
        0 0 false _uniswapV2Router 0 _proposalId initialBalance).

(** ** ERC20 internals (OpenZeppelin, inherited) *)

Definition _mint (account : address) (amount : Z) (s : State) : Result State :=
  supply <- add (totalSupply s) amount ;;
  Ok (set_supply supply (<[account := balance s account + amount]> (balanceOf s)) s).

Definition _burn (account : address) (amount : Z) (s : State) : Result State :=
  require (amount <=? balance s account) "ERC20: burn amount exceeds balance" ;;;
  Ok (set_supply (totalSupply s - amount)
        (<[account := balance s account - amount]> (balanceOf s)) s).

Definition transfer (sender to amount : Z) (s : State) : Result State :=
  require (negb (to =? 0)) "ERC20: transfer to the zero address" ;;;
  require (amount <=? balance s sender) "ERC20: transfer amount exceeds balance" ;;;
  let b1 := <[sender := balance s sender - amount]> (balanceOf s) in
  let b2 := <[to := default 0 (b1 !! to) + amount]> b1 in
  Ok (set_supply (totalSupply s) b2 s).

(** ** Bonding curve functions *)

Definition getCurrentPrice (s : State) : Result Z :=
  let supply := totalSupply s in
  q <- div supply ether ;;
  inc <- mul q PRICE_INCREMENT ;;
  add INITIAL_PRICE inc.

Definition calculatePurchaseReturn (s : State) (ethAmount : Z) : Result Z :=
  if ethAmount =? 0 then Ok 0 else
  currentPrice <- getCurrentPrice s ;;
  scaled <- mul ethAmount ether ;;
  tokenAmount <- div scaled currentPrice ;;
  Ok tokenAmount.

Definition calculateSaleReturn (s : State) (tokenAmount : Z) : Result Z :=
  if tokenAmount =? 0 then Ok 0 else
  require (tokenAmount <=? totalSupply s) "Exceeds supply" ;;;
  currentPrice <- getCurrentPrice s ;;
  prod <- mul tokenAmount currentPrice ;;
  ethAmount <- div prod ether ;;
  if liquidityReserve s <? ethAmount
  then Ok (liquidityReserve s)
  else Ok ethAmount.

(** The calls into Uniswap made by [_graduate] run code outside this
    repository.  [dex] is their outcome: [None] when one of them reverts,
    [Some newPair] when the pair is created at address [newPair] and the router
    takes all the tokens and ETH offered (first liquidity of a fresh pair). *)
Definition _graduate (dex : option address) (s : State)
    : Result (State * list Effect) :=
  require (negb (graduated s)) "Already graduated" ;;;
  require (GRADUATION_THRESHOLD <=? totalETHRaised s) "Threshold not reached" ;;;
  let s := set_graduated true s in
  match dex with
  | None => Err (Revert "external call reverted")
  | Some newPair =>
    let s := set_uniswapV2Pair newPair s in
    let liquidityETH := liquidityReserve s in
    liquidityTokens <- div (totalSupply s) 2 ;;
    s <- _mint (this s) liquidityTokens s ;;
    (* addLiquidityETH{value: liquidityETH}: the router pulls the tokens *)
    require (liquidityETH <=? ethBalance s) "external call reverted" ;;;
    s <- transfer (this s) newPair liquidityTokens s ;;
    let s := set_ethBalance (ethBalance s - liquidityETH) s in
    Ok (s, [Pay (LiquidityAdded liquidityETH);
            Emit (Graduated newPair liquidityETH liquidityTokens)])
  end.

(** [buy]: [value] is msg.value, credited to the contract before the body
    runs; [platformSuccess] is the outcome of the platform recipient's
    fallback. *)
Definition buy (sender value : Z) (platformSuccess : bool)
    (dex : option address) (s0 : State) : Result (State * list Effect) :=
  let s := set_ethBalance (ethBalance s0 + value) s0 in
  require (negb (graduated s)) "Already graduated" ;;;
  require (0 <? value) "Must send ETH" ;;;
  tokenAmount <- calculatePurchaseReturn s value ;;
  require (0 <? tokenAmount) "Invalid token amount" ;;;
  pnum <- mul value PLATFORM_FEE_BPS ;;
  platformFee <- div pnum BPS_DIVISOR ;;
  anum <- mul value AGENT_FEE_BPS ;;
  agentFee <- div anum BPS_DIVISOR ;;
  rest <- sub value platformFee ;;
  liquidityAmount <- sub rest agentFee ;;
  require (platformSuccess && (platformFee <=? ethBalance s))
          "Platform fee transfer failed" ;;;
  let s := set_ethBalance (ethBalance s - platformFee) s in
  reserve <- add (liquidityReserve s) liquidityAmount ;;
  let s := set_liquidityReserve reserve s in
  raised <- add (totalETHRaised s) value ;;
  let s := set_totalETHRaised raised s in
  s <- _mint sender tokenAmount s ;;
  newPrice <- getCurrentPrice s ;;
  let effects :=
    [Pay (PlatformFeePaid (platform s) platformFee);
     Emit (TokensPurchased sender value tokenAmount newPrice);
     Emit (FeesDistributed platformFee agentFee liquidityAmount)] in
  if (GRADUATION_THRESHOLD <=? totalETHRaised s) && negb (graduated s)
  then (r <- _graduate dex s ;; Ok (fst r, effects ++ snd r))
  else Ok (s, effects).

(** [sell]: [success] is the outcome of the seller's fallback. *)
Definition sell (sender tokenAmount : Z) (success : bool) (s : State)
    : Result (State * list Effect) :=
  require (negb (graduated s)) "Already graduated - use Uniswap" ;;;
  require (0 <? tokenAmount) "Must sell positive amount" ;;;
  require (tokenAmount <=? balance s sender) "Insufficient balance" ;;;
  ethAmount <- calculateSaleReturn s tokenAmount ;;
  require (0 <? ethAmount) "Invalid ETH amount" ;;;
  require (ethAmount <=? liquidityReserve s) "Insufficient liquidity" ;;;
  s <- _burn sender tokenAmount s ;;
  reserve <- sub (liquidityReserve s) ethAmount ;;
  let s := set_liquidityReserve reserve s in
  require (success && (ethAmount <=? ethBalance s)) "ETH transfer failed" ;;;
  let s := set_ethBalance (ethBalance s - ethAmount) s in
  newPrice <- getCurrentPrice s ;;
  Ok (s, [Pay (SalePaid sender ethAmount);
          Emit (TokensSold sender tokenAmount ethAmount newPrice)]).

Definition graduate (dex : option address) (s : State)
    : Result (State * list Effect) :=
  require (negb (graduated s)) "Already graduated" ;;;
  require (GRADUATION_THRESHOLD <=? totalETHRaised s) "Threshold not reached" ;;;
  _graduate dex s.

(** [claimAgentFees]: [success] is the outcome of the caller's fallback. *)
Definition claimAgentFees (sender : address) (success : bool) (s : State)
    : Result (State * list Effect) :=
  require (member s sender) "Not a quorum member" ;;;
  totalAgentFees <- sub (ethBalance s) (liquidityReserve s) ;;
  require (0 <? totalAgentFees) "No fees to claim" ;;;
  feePerAgent <- div totalAgentFees (Z.of_nat (length (quorumMembers s))) ;;
  require (0 <? feePerAgent) "Insufficient fees" ;;;
  require (success && (feePerAgent <=? ethBalance s)) "Fee transfer failed" ;;;
  Ok (set_ethBalance (ethBalance s - feePerAgent) s,
      [Pay (AgentFeePaid sender feePerAgent)]).

(** [receive() external payable {}] *)
Definition receive (value : Z) (s : State) : Result (State * list Effect) :=
  Ok (set_ethBalance (ethBalance s + value) s, [Deposit value]).

(** ** Transactions *)

Inductive Call :=
| CBuy (sender value : Z) (platformSuccess : bool) (dex : option address)
| CSell (sender tokenAmount : Z) (success : bool)
| CGraduate (dex : option address)
| CClaimAgentFees (sender : address) (success : bool)
| CReceive (value : Z)
| CTransfer (sender to amount : Z).

Definition is_uint256 (v : Z) : bool := (0 <=? v) && (v <=? MAX_UINT256).

(** The amounts of a call are uint256 by type; a call is well formed when
    every amount it carries is one. *)
Definition well_formed (c : Call) : bool :=
  match c with
  | CBuy _ value _ _ => is_uint256 value
  | CSell _ tokenAmount _ => is_uint256 tokenAmount
  | CReceive value => is_uint256 value
  | CTransfer _ _ amount => is_uint256 amount
  | CGraduate _ | CClaimAgentFees _ _ => true
  end.

Definition exec (c : Call) (s : State) : Result (State * list Effect) :=
  require (well_formed c) "malformed call" ;;;
  match c with
  | CBuy sender value platformSuccess dex => buy sender value platformSuccess dex s
  | CSell sender tokenAmount success => sell sender tokenAmount success s
  | CGraduate dex => graduate dex s
  | CClaimAgentFees sender success => claimAgentFees sender success s
  | CReceive value => receive value s
  | CTransfer sender to amount => s' <- transfer sender to amount s ;; Ok (s', [])
  end.

(** A reverted transaction leaves the storage as it was. *)
Definition step (s : State) (c : Call) : State :=
  match exec c s with
  | Ok r => fst r
  | Err _ => s
  end.

Definition effects_of (s : State) (c : Call) : list Effect :=
  match exec c s with
  | Ok r => snd r
  | Err _ => []
  end.

Definition run (s : State) (calls : list Call) : State := foldl step s calls.

Fixpoint trace (s : State) (calls : list Call) : list Effect :=
  match calls with
  | [] => []
  | c :: rest => effects_of s c ++ trace (step s c) rest
  end.

(** ** Reading a trace *)

Definition is_graduation (e : Effect) : bool :=
  match e with
  | Emit (Graduated _ _ _) => true
  | _ => false
  end.

(** How many times the graduation routine ran to completion. *)
Definition graduations (effs : list Effect) : nat :=
  length (List.filter is_graduation effs).

Definition total (f : Effect -> Z) (effs : list Effect) : Z :=
  foldr (fun e acc => f e + acc) 0 effs.

(** The agent share announced by a purchase. *)
Definition agentFeeIn (e : Effect) : Z :=
  match e with
  | Emit (FeesDistributed _ agentFee _) => agentFee
  | _ => 0
  end.

(** What [claimAgentFees] paid out. *)
Definition claimIn (e : Effect) : Z :=
  match e with
  | Pay (AgentFeePaid _ amount) => amount
  | _ => 0
  end.

Definition depositIn (e : Effect) : Z :=
  match e with
  | Deposit amount => amount
  | _ => 0
  end.

Definition agentFeesAccrued : list Effect -> Z := total agentFeeIn.
Definition agentFeesClaimed : list Effect -> Z := total claimIn.
Definition deposited : list Effect -> Z := total depositIn.

(** A purchase whose msg.value is below 2^128 wei.  All the ETH in
    existence is below 2^87 wei, so every purchase a chain can carry is one. *)
Definition realistic (c : Call) : bool :=
  match c with
  | CBuy _ value _ _ => value <? 2 ^ 128
  | _ => true
  end.

(** ** Invariant of the storage and the trace

    [b0] is the ETH the contract held at deployment and [n] the number of
    quorum members. *)
Definition Inv (b0 : Z) (n : nat) (s : State) (effs : list Effect) : Prop :=
  graduated s = (GRADUATION_THRESHOLD <=? totalETHRaised s) /\
  0 <= liquidityReserve s /\
  liquidityReserve s <= totalETHRaised s /\
  0 <= totalSupply s /\
  length (quorumMembers s) = n /\
  0 <= ethBalance s /\
  (graduated s = false -> liquidityReserve s <= ethBalance s) /\
  (if graduated s then ethBalance s else ethBalance s - liquidityReserve s)
    = b0 + agentFeesAccrued effs + deposited effs - agentFeesClaimed effs /\
  graduations effs = (if graduated s then 1%nat else 0%nat).

(** What the threshold and realistic purchases imply for the supply:
    a purchase mints at most 100000 tokens per wei (the price is at least
    INITIAL_PRICE), and graduation adds half the supply once. *)
Definition SupplyBound (s : State) : Prop :=
  totalSupply s <= (if graduated s then 150000 else 100000) * totalETHRaised s /\
  totalETHRaised s < GRADUATION_THRESHOLD + (if graduated s then 2 ^ 128 else 0).

(** ** A sample deployment

    Contract at address 1000 holding no ETH, quorum members 1, 2 and 3,
    platform recipient 77, router 88, proposal 5. *)
Definition sample : State :=
  mkState 1000 0 ∅ 77 [1; 2; 3]
          (<[3 := true]> (<[2 := true]> (<[1 := true]> ∅)))
          0 0 false 88 0 5 0.

(** A purchase of 10 ether that graduates the sample token, then a second
    purchase. *)
Definition sample_calls : list Call :=
  [CBuy 50 (10 * ether) true (Some 999); CBuy 51 1 true None].

(** ** View functions *)

Definition getQuorumMembers (s : State) : list address := quorumMembers s.

(** Returns (price, supply, ethRaised, liquidityPool, isGraduated,
    progressToGraduation). *)
Definition getMarketStats (s : State) : Result (Z * Z * Z * Z * bool * Z) :=
  price <- getCurrentPrice s ;;
  scaled <- mul (totalETHRaised s) 100 ;;
  progress <- div scaled GRADUATION_THRESHOLD ;;
  Ok (price, totalSupply s, totalETHRaised s, liquidityReserve s,
      graduated s, progress).

(** ** More readings of a trace *)

(** msg.value of a purchase. *)
Definition purchaseIn (e : Effect) : Z :=
  match e with
  | Emit (TokensPurchased _ ethAmount _ _) => ethAmount
  | _ => 0
  end.

(** ETH sent out by any statement. *)
Definition paymentIn (e : Effect) : Z :=
  match e with
  | Pay (PlatformFeePaid _ amount) => amount
  | Pay (SalePaid _ amount) => amount
  | Pay (AgentFeePaid _ amount) => amount
  | Pay (LiquidityAdded amount) => amount
  | _ => 0
  end.

Definition platformIn (e : Effect) : Z :=
  match e with
  | Pay (PlatformFeePaid _ amount) => amount
  | _ => 0
  end.

Definition saleIn (e : Effect) : Z :=
  match e with
  | Pay (SalePaid _ amount) => amount
  | _ => 0
  end.

Definition liquidityIn (e : Effect) : Z :=
  match e with
  | Emit (FeesDistributed _ _ liquidityAmount) => liquidityAmount
  | _ => 0
  end.

(** The books of the contract against its trace; [b0] is the ETH held at
    deployment. *)
Definition Ledger (b0 : Z) (s : State) (effs : list Effect) : Prop :=
  ethBalance s
    = b0 + total purchaseIn effs + total depositIn effs - total paymentIn effs /\
  totalETHRaised s = total purchaseIn effs /\
  liquidityReserve s = total liquidityIn effs - total saleIn effs /\
  total platformIn effs * BPS_DIVISOR <= PLATFORM_FEE_BPS * totalETHRaised s.

(** A call whose Uniswap calls revert (or that makes none). *)
Definition dex_fails (c : Call) : bool :=
  match c with
  | CBuy _ _ _ (Some _) | CGraduate (Some _) => false
  | _ => true
  end.

(** ** Token balances *)

Definition tokenSum (m : gmap Z Z) : Z :=
  map_fold (fun _ v acc => v + acc) 0 m.

(** Every holder's balance is non-negative and the balances add up to the
    supply. *)
Definition Tokens (s : State) : Prop :=
  tokenSum (balanceOf s) = totalSupply s /\
  forall a v, balanceOf s !! a = Some v -> 0 <= v.


(** ** Abbreviations used in the statements

    The fee parts [buy] computes from msg.value, and the price
    [getCurrentPrice] computes from the supply. *)
Definition platformFeeOf (value : Z) : Z := value * PLATFORM_FEE_BPS / BPS_DIVISOR.
Definition agentFeeOf (value : Z) : Z := value * AGENT_FEE_BPS / BPS_DIVISOR.
Definition liquidityOf (value : Z) : Z := value - platformFeeOf value - agentFeeOf value.
Definition priceAt (supply : Z) : Z := INITIAL_PRICE + supply / ether.

End BondingCurve.

(* ===================================================================== *)
(** * The collaboration service                                            *)
(* ===================================================================== *)

Module CollaborationService.

(** Entity ids are the auto-increment keys of the tables; timestamps are
    milliseconds.  [new Date()] reads a clock, so the methods that call it
    take the reading as [now]. *)
Definition ID := Z.
Definition Date := Z.

Inductive CollaborationStatus := PENDING | VOTING | ACTIVE | COMPLETED | FAILED.

(** An agent profile: a Vendure product with the two custom fields the
    service writes.  The source computes successRate in floating point; it
    is kept here as the exact rational. *)
Record Product := mkProduct {
  product_id : ID;
  collaborationCount : Z;
  successRate : Q
}.

(** [agents] holds what productService.findOne returned for each requested
    id, [None] standing for undefined.  The two counters are JavaScript
    numbers holding integers, taken here as unbounded integers.  The
    base-class columns createdAt and updatedAt and the unused metadata column
    are left out. *)
Record Collaboration := mkCollaboration {
  id : ID;
  quorumId : string;
  agents : list (option ID);
  status : CollaborationStatus;
  tokenAddress : option string;
  tokenName : option string;
  tokenSymbol : option string;
  marketCap : string;
  graduated : bool;
  graduatedAt : option Date;
  votesReceived : Z;
  requiredVotes : Z
}.

Record Vote := mkVote {
  vote_id : ID;
  vote_collaboration : option ID;     (* ManyToOne, [None] = null *)
  vote_agent : option ID;
  transactionHash : string;
  votedAt : Date
}.

(** The three tables, rows in insertion order. *)
Record Store := mkStore {
  products : list Product;
  collaborations : list Collaboration;
  votes : list Vote
}.

(** ** Exceptions

    The methods are not wrapped in a database transaction: what was saved
    before a throw stays saved. *)
Inductive Exn :=
| TypeError (what : string)          (* property access on null/undefined *)
| EntityNotFound (what : string).

Inductive Outcome (A : Type) :=
| Returned (a : A)
| Thrown (e : Exn).
Arguments Returned {A} a.
Arguments Thrown {A} e.

Definition M (A : Type) : Type := Store -> Outcome A * Store.

Definition ret {A} (a : A) : M A := fun st => (Returned a, st).
Definition throw {A} (e : Exn) : M A := fun st => (Thrown e, st).
Definition bind {A B} (m : M A) (k : A -> M B) : M B :=
  fun st =>
    match m st with
    | (Returned a, st') => k a st'
    | (Thrown e, st') => (Thrown e, st')
    end.

Notation "x <- m ;; k" := (bind m (fun x => k))
  (at level 100, m at next level, right associativity).
Notation "m ;;; k" := (bind m (fun _ => k))
  (at level 100, right associativity).

(** ** Repositories *)

Definition fresh_id {A} (rows : list A) : ID := Z.of_nat (length rows) + 1.

(** productService.findOne(ctx, id) *)
Definition product_findOne (pid : ID) : M (option Product) :=
  fun st => (Returned (List.find (fun p => product_id p =? pid) (products st)), st).

(** productService.update(ctx, { id, customFields }) *)
Definition product_update (pid : ID) (count : Z) (rate : Q) : M unit :=
  fun st =>
    if existsb (fun p => product_id p =? pid) (products st)
    then (Returned tt,
          mkStore (map (fun p => if product_id p =? pid
                                 then mkProduct pid count rate else p)
                       (products st))
                  (collaborations st) (votes st))
    else (Thrown (EntityNotFound "Product"), st).

(** getRepository(Collaboration).save(entity) for an entity whose id is set:
    the row with that id is overwritten, a missing row is inserted. *)
Definition save_collaboration (c : Collaboration) : M Collaboration :=
  fun st =>
    let rows := collaborations st in
    let rows' :=
      if existsb (fun r => id r =? id c) rows
      then map (fun r => if id r =? id c then c else r) rows
      else rows ++ [c] in
    (Returned c, mkStore (products st) rows' (votes st)).

(** save of a new Vote: the row is appended under a fresh id. *)
Definition insert_vote (collaboration agent : option ID)
    (transactionHash : string) (votedAt : Date) : M Vote :=
  fun st =>
    let v := mkVote (fresh_id (votes st)) collaboration agent
                    transactionHash votedAt in
    (Returned v, mkStore (products st) (collaborations st) (votes st ++ [v])).

Definition findOne (cid : ID) : M (option Collaboration) :=
  fun st => (Returned (List.find (fun c => id c =? cid) (collaborations st)), st).

Definition findByQuorumId (q : string) : M (option Collaboration) :=
  fun st => (Returned (List.find (fun c => String.eqb (quorumId c) q)
                                 (collaborations st)), st).

Definition opt_string_eqb (a : option string) (b : string) : bool :=
  match a with
  | Some x => String.eqb x b
  | None => false
  end.

Definition findByTokenAddress (t : string) : M (option Collaboration) :=
  fun st => (Returned (List.find (fun c => opt_string_eqb (tokenAddress c) t)
                                 (collaborations st)), st).

Definition has_agent (agentId : ID) (c : Collaboration) : bool :=
  existsb (fun a => match a with Some x => x =? agentId | None => false end)
          (agents c).

Definition findByAgentId (agentId : ID) : M (list Collaboration) :=
  fun st => (Returned (List.filter (has_agent agentId) (collaborations st)), st).

(** ** Field updates *)

Definition with_votes (n : Z) (st : CollaborationStatus) (c : Collaboration)
    : Collaboration :=
  mkCollaboration (id c) (quorumId c) (agents c) st (tokenAddress c)
    (tokenName c) (tokenSymbol c) (marketCap c) (graduated c) (graduatedAt c)
    n (requiredVotes c).

Definition with_token (a n s : string) (c : Collaboration) : Collaboration :=
  mkCollaboration (id c) (quorumId c) (agents c) ACTIVE (Some a) (Some n)
    (Some s) (marketCap c) (graduated c) (graduatedAt c) (votesReceived c)
    (requiredVotes c).

Definition with_marketCap (m : string) (c : Collaboration) : Collaboration :=
  mkCollaboration (id c) (quorumId c) (agents c) (status c) (tokenAddress c)
    (tokenName c) (tokenSymbol c) m (graduated c) (graduatedAt c)
    (votesReceived c) (requiredVotes c).

Definition with_graduation (now : Date) (c : Collaboration) : Collaboration :=
  mkCollaboration (id c) (quorumId c) (agents c) COMPLETED (tokenAddress c)
    (tokenName c) (tokenSymbol c) (marketCap c) true (Some now)
    (votesReceived c) (requiredVotes c).

(** ** Service methods *)

Fixpoint mapM {A B} (f : A -> M B) (l : list A) : M (list B) :=
  match l with
  | [] => ret []
  | a :: rest => b <- f a ;; bs <- mapM f rest ;; ret (b :: bs)
  end.

Definition createCollaboration (quorumId : string) (agentIds : list ID)
    : M Collaboration :=
  found <- mapM product_findOne agentIds ;;
  fun st =>
    let c := mkCollaboration (fresh_id (collaborations st)) quorumId
               (map (option_map product_id) found) PENDING None None None
               "0" false None 0 (Z.of_nat (length found)) in
    (Returned c, mkStore (products st) (collaborations st ++ [c]) (votes st)).

Definition recordVote (now : Date) (collaborationId agentId : ID)
    (transactionHash : string) : M Vote :=
  collaboration <- findOne collaborationId ;;
  agent <- product_findOne agentId ;;
  vote <- insert_vote (option_map id collaboration)
                      (option_map product_id agent) transactionHash now ;;
  match collaboration with
  | None => throw (TypeError "collaboration.votesReceived")
  | Some c =>
    let n := votesReceived c + 1 in
    let st := if n =? requiredVotes c then VOTING else status c in
    save_collaboration (with_votes n st c) ;;;
    ret vote
  end.

Definition updateTokenLaunch (quorumId tokenAddress tokenName tokenSymbol : string)
    : M Collaboration :=
  collaboration <- findByQuorumId quorumId ;;
  match collaboration with
  | None => throw (TypeError "collaboration.tokenAddress")
  | Some c => save_collaboration (with_token tokenAddress tokenName tokenSymbol c)
  end.

Definition updateMarketCap (tokenAddress marketCap : string) : M Collaboration :=
  collaboration <- findByTokenAddress tokenAddress ;;
  match collaboration with
  | None => throw (TypeError "collaboration.marketCap")
  | Some c => save_collaboration (with_marketCap marketCap c)
  end.

Definition updateAgentSuccessRate (agentId : ID) : M unit :=
  cs <- findByAgentId agentId ;;
  let successful := length (List.filter graduated cs) in
  let total := length cs in
  let rate :=
    if (0 <? total)%nat
    then (Qmake (Z.of_nat successful) (Pos.of_nat total) * 100)%Q
    else 0%Q in
  product_update agentId (Z.of_nat total) rate.

Fixpoint forEach {A} (f : A -> M unit) (l : list A) : M unit :=
  match l with
  | [] => ret tt
  | a :: rest => f a ;;; forEach f rest
  end.

(** for (const agent of collaboration.agents)
      await this.updateAgentSuccessRate(ctx, agent.id) *)
Definition rate_loop (ags : list (option ID)) : M unit :=
  forEach (fun agent =>
             match agent with
             | None => throw (TypeError "agent.id")
             | Some agentId => updateAgentSuccessRate agentId
             end) ags.

Definition markGraduated (now : Date) (tokenAddress : string) : M Collaboration :=
  collaboration <- findByTokenAddress tokenAddress ;;
  match collaboration with
  | None => throw (TypeError "collaboration.graduated")
  | Some c =>
    let c' := with_graduation now c in
    rate_loop (agents c') ;;;
    save_collaboration c'
  end.

(** ** Calls to the service *)

Inductive Op :=
| CreateCollaboration (quorumId : string) (agentIds : list ID)
| RecordVote (now : Date) (collaborationId agentId : ID) (transactionHash : string)
| UpdateTokenLaunch (quorumId tokenAddress tokenName tokenSymbol : string)
| UpdateMarketCap (tokenAddress marketCap : string)
| MarkGraduated (now : Date) (tokenAddress : string).

(** The store a call leaves behind, whether it returned or threw. *)
Definition apply (st : Store) (op : Op) : Store :=
  match op with
  | CreateCollaboration q ags => snd (createCollaboration q ags st)
  | RecordVote now c a tx => snd (recordVote now c a tx st)
  | UpdateTokenLaunch q a n s => snd (updateTokenLaunch q a n s st)
  | UpdateMarketCap t m => snd (updateMarketCap t m st)
  | MarkGraduated now t => snd (markGraduated now t st)
  end.

Definition applyAll (st : Store) (ops : list Op) : Store := foldl apply st ops.

(** A store with agent profiles and no collaboration or vote yet. *)
Definition initial (ps : list Product) : Store := mkStore ps [] [].

(** ** Reading the store *)

Definition lookup (st : Store) (cid : ID) : option Collaboration :=
  List.find (fun c => id c =? cid) (collaborations st).

Definition votes_of (st : Store) (cid : ID) : list Vote :=
  List.filter (fun v => bool_decide (vote_collaboration v = Some cid)) (votes st).


(** Four agent profiles, used in the worked examples. *)
Definition sample_products : list Product :=
  [mkProduct 1 0 0; mkProduct 2 0 0; mkProduct 3 0 0; mkProduct 4 0 0].

(** Every agent of the collaboration is a stored product. *)
Definition known (st : Store) (a : option ID) : bool :=
  match a with
  | Some pid => existsb (fun p => product_id p =? pid) (products st)
  | None => false
  end.

Definition agents_known (st : Store) (c : Collaboration) : bool :=
  forallb (known st) (agents c).

(** Rewriting the row with key [cid] by [g]. *)
Definition update_row (cid : ID) (g : Collaboration -> Collaboration)
    (rows : list Collaboration) : list Collaboration :=
  map (fun r => if id r =? cid then g r else r) rows.

(** What recordVote does to the row it found. *)
Definition voted (r : Collaboration) : Collaboration :=
  with_votes (votesReceived r + 1)
    (if votesReceived r + 1 =? requiredVotes r then VOTING else status r) r.

(** ** Well-formed stores

    Keys are the positions of the rows (rows are never deleted), a Vote
    refers to no collaboration or to a stored one, and every collaboration's
    counter is the number of Vote rows that refer to it. *)
Definition keys_ok (st : Store) : Prop :=
  forall (i : nat) (c : Collaboration),
    collaborations st !! i = Some c -> id c = Z.of_nat i + 1.

Definition refs_ok (st : Store) : Prop :=
  forall (v : Vote) (cid : ID),
    In v (votes st) -> vote_collaboration v = Some cid ->
    1 <= cid <= Z.of_nat (length (collaborations st)).

Definition counts_ok (st : Store) : Prop :=
  forall c : Collaboration,
    In c (collaborations st) ->
    votesReceived c = Z.of_nat (length (votes_of st (id c))).

Definition well_formed (st : Store) : Prop :=
  keys_ok st /\ refs_ok st /\ counts_ok st.

(** ** Further queries *)

Definition status_eqb (a b : CollaborationStatus) : bool :=
  match a, b with
  | PENDING, PENDING | VOTING, VOTING | ACTIVE, ACTIVE
  | COMPLETED, COMPLETED | FAILED, FAILED => true
  | _, _ => false
  end.

(** findAll(ctx, status?): the where clause is added when a status is
    passed (every status is a non-empty string). *)
Definition findAll (wanted : option CollaborationStatus)
    : M (list Collaboration) :=
  fun st =>
    (Returned match wanted with
              | Some s => List.filter (fun c => status_eqb (status c) s)
                                      (collaborations st)
              | None => collaborations st
              end, st).

(** The stored profile of an agent. *)
Definition profile (st : Store) (agentId : ID) : option Product :=
  List.find (fun p => product_id p =? agentId) (products st).

(** ** Abbreviations used in the further statements *)

(** The figures updateAgentSuccessRate derives from the collaboration
    table. *)
Definition total_of (st : Store) (agentId : ID) : nat :=
  length (List.filter (has_agent agentId) (collaborations st)).

Definition successful_of (st : Store) (agentId : ID) : nat :=
  length (List.filter graduated
            (List.filter (has_agent agentId) (collaborations st))).

Definition rate_of (st : Store) (agentId : ID) : Q :=
  if (0 <? total_of st agentId)%nat
  then (Qmake (Z.of_nat (successful_of st agentId))
              (Pos.of_nat (total_of st agentId)) * 100)%Q
  else 0%Q.

(** The agents the loop of markGraduated gets to: those listed before the
    first missing one. *)
Fixpoint reached (ags : list (option ID)) : list ID :=
  match ags with
  | Some a :: rest => a :: reached rest
  | _ => []
  end.

Definition all_found (ags : list (option ID)) : bool :=
  forallb (fun a => match a with Some _ => true | None => false end) ags.

(** The row createCollaboration stores. *)
Definition created (st : Store) (quorumId : string) (agentIds : list ID)
    : Collaboration :=
  mkCollaboration (fresh_id (collaborations st)) quorumId
    (map (fun pid => option_map product_id (profile st pid)) agentIds)
    PENDING None None None "0" false None 0 (Z.of_nat (length agentIds)).

(** What one call can do to a stored row. *)
Inductive row_step : Collaboration -> Collaboration -> Prop :=
| row_kept r : row_step r r
| row_voted r : row_step r (voted r)
| row_launched a n s r : row_step r (with_token a n s r)
| row_priced m r : row_step r (with_marketCap m r)
| row_graduated now r :
    is_Some (tokenAddress r) -> row_step r (with_graduation now r).

(** What holds of every stored row. *)
Definition row_ok (c : Collaboration) : Prop :=
  status c <> FAILED /\
  requiredVotes c = Z.of_nat (length (agents c)) /\
  0 <= votesReceived c /\
  (status c = PENDING ->
   tokenAddress c = None /\ graduated c = false /\
   (requiredVotes c = 0 \/ votesReceived c < requiredVotes c)) /\
  (status c = VOTING -> requiredVotes c <= votesReceived c) /\
  (status c = ACTIVE -> is_Some (tokenAddress c)) /\
  (status c = COMPLETED -> graduated c = true) /\
  (graduated c = true <-> is_Some (graduatedAt c)) /\
  (graduated c = true -> is_Some (tokenAddress c)) /\
  (is_Some (tokenAddress c) <-> is_Some (tokenName c)) /\
  (is_Some (tokenAddress c) <-> is_Some (tokenSymbol c)).

Definition agents_stored (st : Store) (c : Collaboration) : Prop :=
  forall a, In (Some a) (agents c) -> is_Some (profile st a).

(** A later version of a row. *)
Definition extends (c c' : Collaboration) : Prop :=
  id c' = id c /\ quorumId c' = quorumId c /\ agents c' = agents c /\
  requiredVotes c' = requiredVotes c /\
  votesReceived c <= votesReceived c' /\
  (graduated c = true -> graduated c' = true) /\
  (is_Some (tokenAddress c) -> is_Some (tokenAddress c')) /\
  (status c <> PENDING -> status c' <> PENDING).




End CollaborationService.

(* ===================================================================== *)
(** * Facts about the bonding-curve contract                              *)
(* ===================================================================== *)

Module CurveFacts.
Import BondingCurve.

(** ** Inversion of the checked operations *)

Lemma add_Ok a b c : add a b = Ok c -> c = a + b /\ a + b <= MAX_UINT256.
Proof. unfold add. destruct (Z.leb_spec (a + b) MAX_UINT256); intros [= <-]; lia. Qed.

Lemma sub_Ok a b c : sub a b = Ok c -> c = a - b /\ b <= a.
Proof. unfold sub. destruct (Z.leb_spec b a); intros [= <-]; lia. Qed.

Lemma mul_Ok a b c : mul a b = Ok c -> c = a * b /\ a * b <= MAX_UINT256.
Proof. unfold mul. destruct (Z.leb_spec (a * b) MAX_UINT256); intros [= <-]; lia. Qed.

Lemma div_Ok a b c : div a b = Ok c -> c = a / b /\ b <> 0.
Proof. unfold div. destruct (Z.eqb_spec b 0); intros [= <-]; lia. Qed.

Lemma require_Ok c r u : require c r = Ok u -> c = true.
Proof. unfold require. destruct c; [reflexivity | discriminate]. Qed.

Lemma bind_Ok {A B} (m : Result A) (k : A -> Result B) b :
  bind m k = Ok b -> exists a, m = Ok a /\ k a = Ok b.
Proof. destruct m; simpl; [eauto | discriminate]. Qed.

Ltac inv_bind H :=
  let x := fresh "x" in
  let E := fresh "E" in
  apply bind_Ok in H; destruct H as (x & E & H).

Ltac inv_ops :=
  repeat match goal with
  | H : require _ _ = Ok _ |- _ => apply require_Ok in H
  | H : add _ _ = Ok _ |- _ => apply add_Ok in H; destruct H as [-> ?]
  | H : sub _ _ = Ok _ |- _ => apply sub_Ok in H; destruct H as [-> ?]
  | H : mul _ _ = Ok _ |- _ => apply mul_Ok in H; destruct H as [-> ?]
  | H : div _ _ = Ok _ |- _ => apply div_Ok in H; destruct H as [-> ?]
  | H : Ok _ = Ok _ |- _ => injection H as H; subst
  end.

Ltac bools :=
  repeat match goal with
  | Hx : (_ <? _) = true |- _ => apply Z.ltb_lt in Hx
  | Hx : (_ <=? _) = true |- _ => apply Z.leb_le in Hx
  | Hx : (_ <? _) = false |- _ => apply Z.ltb_ge in Hx
  | Hx : (_ <=? _) = false |- _ => apply Z.leb_gt in Hx
  | Hx : _ && _ = true |- _ => apply andb_true_iff in Hx as [? ?]
  end.

Lemma getCurrentPrice_priceAt s p :
  getCurrentPrice s = Ok p -> p = priceAt (totalSupply s).
Proof.
  unfold getCurrentPrice, priceAt. intros H. repeat inv_bind H. inv_ops.
  unfold PRICE_INCREMENT. lia.
Qed.

Lemma _mint_Ok account amount s s' :
  _mint account amount s = Ok s' ->
  s' = set_supply (totalSupply s + amount)
         (<[account := balance s account + amount]> (balanceOf s)) s
  /\ totalSupply s + amount <= MAX_UINT256.
Proof. unfold _mint. intros H. inv_bind H. inv_ops. auto. Qed.

Lemma _burn_Ok account amount s s' :
  _burn account amount s = Ok s' ->
  s' = set_supply (totalSupply s - amount)
         (<[account := balance s account - amount]> (balanceOf s)) s.
Proof. unfold _burn. intros H. inv_bind H. inv_ops. auto. Qed.

Lemma transfer_Ok sender to amount s s' :
  transfer sender to amount s = Ok s' ->
  exists b, s' = set_supply (totalSupply s) b s.
Proof. unfold transfer. intros H. repeat inv_bind H. inv_ops. eauto. Qed.

(** What a successful [_graduate] does to the storage. *)
Lemma _graduate_Ok dex s s' effs :
  _graduate dex s = Ok (s', effs) ->
  graduated s = false /\ GRADUATION_THRESHOLD <= totalETHRaised s /\
  graduated s' = true /\
  totalETHRaised s' = totalETHRaised s /\
  liquidityReserve s' = liquidityReserve s /\
  totalSupply s' = totalSupply s + totalSupply s / 2 /\
  liquidityReserve s <= ethBalance s /\
  ethBalance s' = ethBalance s - liquidityReserve s /\
  quorumMembers s' = quorumMembers s /\
  isQuorumMember s' = isQuorumMember s /\
  exists newPair,
    dex = Some newPair /\
    effs = [Pay (LiquidityAdded (liquidityReserve s));
            Emit (Graduated newPair (liquidityReserve s) (totalSupply s / 2))].
Proof.
  unfold _graduate. intros H. do 2 inv_bind H.
  destruct dex as [newPair|]; [|discriminate].
  cbv zeta in H. inv_bind H. inv_bind H.
  apply _mint_Ok in E2 as [-> _]. inv_bind H. inv_bind H.
  apply transfer_Ok in E3 as [b ->]. inv_ops. cbn in *.
  apply negb_true_iff in E. apply Z.leb_le in E0, E2.
  repeat split; eauto.
Qed.

Lemma calculatePurchaseReturn_Ok s value t :
  calculatePurchaseReturn s value = Ok t -> value <> 0 ->
  t = value * ether / priceAt (totalSupply s).
Proof.
  unfold calculatePurchaseReturn. intros H Hv.
  destruct (Z.eqb_spec value 0); [contradiction|].
  repeat inv_bind H. apply getCurrentPrice_priceAt in E. inv_ops. reflexivity.
Qed.

Ltac inv_calls :=
  repeat match goal with
  | H : _mint _ _ _ = Ok _ |- _ => apply _mint_Ok in H as [-> _]
  | H : _burn _ _ _ = Ok _ |- _ => apply _burn_Ok in H as ->
  | H : getCurrentPrice _ = Ok _ |- _ => apply getCurrentPrice_priceAt in H
  end.

(** What a successful [buy] does to the storage and which effects it has. *)
Lemma buy_Ok sender value ps dex s s' effs :
  buy sender value ps dex s = Ok (s', effs) ->
  let tokens := value * ether / priceAt (totalSupply s) in
  let minted := totalSupply s + tokens in
  let crossing := GRADUATION_THRESHOLD <=? totalETHRaised s + value in
  let base :=
    [Pay (PlatformFeePaid (platform s) (platformFeeOf value));
     Emit (TokensPurchased sender value tokens (priceAt minted));
     Emit (FeesDistributed (platformFeeOf value) (agentFeeOf value)
                           (liquidityOf value))] in
  graduated s = false /\ 0 < value /\ 0 < tokens /\
  platformFeeOf value + agentFeeOf value <= value /\
  totalETHRaised s' = totalETHRaised s + value /\
  liquidityReserve s' = liquidityReserve s + liquidityOf value /\
  graduated s' = crossing /\
  quorumMembers s' = quorumMembers s /\
  isQuorumMember s' = isQuorumMember s /\
  (if crossing
   then totalSupply s' = minted + minted / 2 /\
        ethBalance s' = ethBalance s + value - platformFeeOf value
                        - liquidityReserve s' /\
        exists newPair,
          effs = base ++ [Pay (LiquidityAdded (liquidityReserve s'));
                          Emit (Graduated newPair (liquidityReserve s') (minted / 2))]
   else totalSupply s' = minted /\
        ethBalance s' = ethBalance s + value - platformFeeOf value /\
        effs = base).
Proof.
  unfold buy. cbv zeta. intros H.
  do 2 inv_bind H. inv_bind H.
  apply require_Ok in E, E0. cbn in E. apply negb_true_iff in E.
  apply Z.ltb_lt in E0.
  apply calculatePurchaseReturn_Ok in E1; [|lia]. cbn in E1. subst x1.
  repeat inv_bind H. inv_calls. cbn in *. inv_ops.
  match goal with Hx : (0 <? _) = true |- _ => apply Z.ltb_lt in Hx end.
  fold (platformFeeOf value) in *. fold (agentFeeOf value) in *.
  rewrite E.
  assert (Hliq : value - platformFeeOf value - agentFeeOf value = liquidityOf value)
    by reflexivity.
  rewrite Hliq in *.
  rewrite E in H. cbn [negb] in H. rewrite andb_true_r in H.
  destruct (GRADUATION_THRESHOLD <=? totalETHRaised s + value) eqn:Hc.
  - apply bind_Ok in H as ([g ge] & Hg & H).
    apply _graduate_Ok in Hg. cbn in Hg.
    destruct Hg as (_ & _ & G1 & G2 & G3 & G4 & G5 & G6 & G7 & G8 & np & -> & ->).
    inv_ops. cbn [fst snd].
    repeat split; try assumption; try lia.
    exists np. rewrite G3. reflexivity.
  - inv_ops. cbn. repeat split; try reflexivity; try lia; try assumption.
Qed.

Lemma calculateSaleReturn_Ok s tokenAmount e :
  calculateSaleReturn s tokenAmount = Ok e -> tokenAmount <> 0 ->
  tokenAmount <= totalSupply s /\
  tokenAmount * priceAt (totalSupply s) <= MAX_UINT256 /\
  e = Z.min (tokenAmount * priceAt (totalSupply s) / ether) (liquidityReserve s).
Proof.
  unfold calculateSaleReturn. intros H Hv.
  destruct (Z.eqb_spec tokenAmount 0); [contradiction|].
  repeat inv_bind H. inv_calls. subst. inv_ops.
  match goal with Hx : (_ <=? _) = true |- _ => apply Z.leb_le in Hx end.
  destruct (Z.ltb_spec (liquidityReserve s)
              (tokenAmount * priceAt (totalSupply s) / ether));
    inv_ops; repeat split; auto; lia.
Qed.

(** What a successful [sell] does. *)
Lemma sell_Ok sender tokenAmount success s s' effs :
  sell sender tokenAmount success s = Ok (s', effs) ->
  let ethAmount :=
    Z.min (tokenAmount * priceAt (totalSupply s) / ether) (liquidityReserve s) in
  graduated s = false /\ 0 < tokenAmount /\ tokenAmount <= totalSupply s /\
  0 < ethAmount /\ ethAmount <= ethBalance s /\
  totalSupply s' = totalSupply s - tokenAmount /\
  totalETHRaised s' = totalETHRaised s /\
  liquidityReserve s' = liquidityReserve s - ethAmount /\
  ethBalance s' = ethBalance s - ethAmount /\
  graduated s' = false /\
  quorumMembers s' = quorumMembers s /\
  isQuorumMember s' = isQuorumMember s /\
  effs = [Pay (SalePaid sender ethAmount);
          Emit (TokensSold sender tokenAmount ethAmount
                  (priceAt (totalSupply s - tokenAmount)))].
Proof.
  unfold sell. cbv zeta. intros H.
  do 4 inv_bind H. apply require_Ok in E, E0, E1.
  apply negb_true_iff in E. apply Z.ltb_lt in E0.
  apply calculateSaleReturn_Ok in E2 as (Hs & _ & ->); [|lia].
  repeat inv_bind H.
  inv_calls. cbn in *. inv_ops.
  repeat match goal with
  | Hx : (_ <? _) = true |- _ => apply Z.ltb_lt in Hx
  | Hx : (_ <=? _) = true |- _ => apply Z.leb_le in Hx
  | Hx : _ && _ = true |- _ => apply andb_true_iff in Hx as [? ?]
  end.
  repeat split; auto; lia.
Qed.

(** What a successful [claimAgentFees] does. *)
Lemma claimAgentFees_Ok sender success s s' effs :
  claimAgentFees sender success s = Ok (s', effs) ->
  let unclaimed := ethBalance s - liquidityReserve s in
  let feePerAgent := unclaimed / Z.of_nat (length (quorumMembers s)) in
  member s sender = true /\ 0 < unclaimed /\ 0 < feePerAgent /\
  feePerAgent <= ethBalance s /\ success = true /\
  s' = set_ethBalance (ethBalance s - feePerAgent) s /\
  effs = [Pay (AgentFeePaid sender feePerAgent)].
Proof.
  unfold claimAgentFees. intros H. repeat inv_bind H. inv_ops.
  repeat match goal with
  | Hx : (_ <? _) = true |- _ => apply Z.ltb_lt in Hx
  | Hx : (_ <=? _) = true |- _ => apply Z.leb_le in Hx
  | Hx : _ && _ = true |- _ => apply andb_true_iff in Hx as [? ?]
  end.
  repeat split; auto.
Qed.

Lemma graduate_Ok dex s s' effs :
  graduate dex s = Ok (s', effs) ->
  graduated s = false /\ GRADUATION_THRESHOLD <= totalETHRaised s /\
  quorumMembers s' = quorumMembers s /\
  isQuorumMember s' = isQuorumMember s.
Proof.
  unfold graduate. intros H. do 2 inv_bind H.
  apply _graduate_Ok in H. tauto.
Qed.

(** ** Traces *)

Lemma total_app f (a b : list Effect) : total f (a ++ b) = total f a + total f b.
Proof. unfold total. induction a as [|e a IH]; simpl; lia. Qed.

Lemma graduations_app (a b : list Effect) :
  graduations (a ++ b) = (graduations a + graduations b)%nat.
Proof. unfold graduations. rewrite List.filter_app, length_app. reflexivity. Qed.

Lemma run_snoc s calls c : run s (calls ++ [c]) = step (run s calls) c.
Proof. unfold run. rewrite foldl_app. reflexivity. Qed.

Lemma trace_snoc calls : forall s c,
  trace s (calls ++ [c]) = trace s calls ++ effects_of (run s calls) c.
Proof.
  induction calls as [|d calls IH]; intros s c; simpl.
  - rewrite app_nil_r. reflexivity.
  - rewrite IH, app_assoc. reflexivity.
Qed.

(** Induction along a run: a property of the storage and the trace that
    holds at deployment and is kept by every call holds after any calls. *)
Lemma run_trace_ind (P : State -> list Effect -> Prop) (s0 : State) :
  P s0 [] ->
  (forall s effs c, P s effs -> P (step s c) (effs ++ effects_of s c)) ->
  forall calls, P (run s0 calls) (trace s0 calls).
Proof.
  intros H0 Hstep calls. induction calls as [|c calls IH] using rev_ind.
  - exact H0.
  - rewrite run_snoc, trace_snoc. apply Hstep, IH.
Qed.

Lemma fees_nonneg value :
  0 <= value -> 0 <= platformFeeOf value /\ 0 <= agentFeeOf value.
Proof.
  intros Hv. unfold platformFeeOf, agentFeeOf, PLATFORM_FEE_BPS, AGENT_FEE_BPS,
    BPS_DIVISOR.
  split; apply Z.div_pos; lia.
Qed.

Lemma constructor_Ok self b0 members pf router pid s0 :
  constructor self b0 members pf router pid = Ok s0 ->
  s0 = mkState self 0 ∅ pf members
         (foldl (fun m a => <[a := true]> m) ∅ members)
         0 0 false router 0 pid b0
  /\ (3 <= length members <= 5)%nat.
Proof.
  unfold constructor. cbv zeta. intros H. repeat inv_bind H. inv_ops.
  bools. split; [reflexivity | lia].
Qed.

Lemma Inv_init self b0 members pf router pid s0 :
  constructor self b0 members pf router pid = Ok s0 -> 0 <= b0 ->
  Inv b0 (length members) s0 [].
Proof.
  intros H Hb. apply constructor_Ok in H as [-> _].
  unfold Inv. cbn. repeat split; auto; lia.
Qed.

Lemma Inv_step b0 n s effs c :
  (1 <= n)%nat -> Inv b0 n s effs ->
  Inv b0 n (step s c) (effs ++ effects_of s c).
Proof.
  intros Hn HI. unfold step, effects_of.
  destruct (exec c s) as [[s' effs']|f] eqn:Hexec;
    [|rewrite app_nil_r; exact HI].
  cbn [fst snd].
  destruct HI as (Ig & Ir0 & Ir & Is & In_ & Ib & Ibr & Iled & Igr).
  unfold exec in Hexec. inv_bind Hexec. apply require_Ok in E.
  unfold Inv, agentFeesAccrued, deposited, agentFeesClaimed in *.
  rewrite !total_app, graduations_app.
  destruct c as [sender value ps dex|sender amt succ|dex|sender succ|value
                |sender to amt]; cbn [well_formed] in E.
  - (* buy *)
    apply buy_Ok in Hexec. cbv zeta in Hexec.
    destruct Hexec as (Hg & Hv & Ht & Hfee & Hr & Hl & Hg' & Hq & _ & Hrest).
    destruct (fees_nonneg value) as [Hpf Haf]; [lia|].
    unfold liquidityOf in *.
    rewrite Hg in *. rewrite Hr, Hl, Hg', Hq.
    destruct (GRADUATION_THRESHOLD <=? totalETHRaised s + value) eqn:Hc.
    + destruct Hrest as (Hs' & Hb' & np & ->).
      rewrite !total_app, graduations_app. cbn.
      specialize (Ibr eq_refl).
      assert (0 <= (totalSupply s + value * ether / priceAt (totalSupply s)) / 2)
        by (apply Z.div_pos; lia).
      repeat split; try lia; try congruence.
    + destruct Hrest as (Hs' & Hb' & ->). cbn.
      specialize (Ibr eq_refl).
      repeat split; try lia; try congruence.
  - (* sell *)
    apply sell_Ok in Hexec. cbv zeta in Hexec.
    destruct Hexec as (Hg & Ht & Hts & He & Heb & Hs' & Hr & Hl & Hb' & Hg' & Hq & _ & ->).
    rewrite Hg in *. rewrite Hr, Hl, Hg', Hq, Hs', Hb'. cbn.
    specialize (Ibr eq_refl).
    repeat split; try lia; try congruence.
  - (* graduate *)
    apply graduate_Ok in Hexec as (Hg & Ht & _).
    rewrite Hg in Ig. symmetry in Ig. bools. lia.
  - (* claimAgentFees *)
    apply claimAgentFees_Ok in Hexec. cbv zeta in Hexec.
    destruct Hexec as (_ & Hu & Hf & Hfb & _ & -> & ->). cbn.
    assert (Hle : (ethBalance s - liquidityReserve s)
                  / Z.of_nat (length (quorumMembers s))
                  <= ethBalance s - liquidityReserve s)
      by (apply Z.div_le_upper_bound; nia).
    destruct (graduated s); repeat split; try lia; try congruence;
      try (intros _; specialize (Ibr eq_refl); lia).
  - (* receive *)
    unfold receive in Hexec. inv_ops. cbn. unfold is_uint256 in E. bools.
    destruct (graduated s); repeat split; try lia; try congruence;
      try (intros _; specialize (Ibr eq_refl); lia).
  - (* transfer *)
    inv_bind Hexec. apply transfer_Ok in E0 as [b ->]. inv_ops. cbn.
    destruct (graduated s); repeat split; try lia; try congruence.
Qed.

Lemma Inv_run self b0 members pf router pid s0 calls :
  constructor self b0 members pf router pid = Ok s0 -> 0 <= b0 ->
  Inv b0 (length members) (run s0 calls) (trace s0 calls).
Proof.
  intros H Hb. apply run_trace_ind.
  - eapply Inv_init; eauto.
  - intros s effs c. apply Inv_step.
    apply constructor_Ok in H as [_ Hn]. lia.
Qed.


Lemma foldl_insert_lookup (l : list Z) : forall (m : gmap Z bool) (x : Z),
  default false (foldl (fun m a => <[a := true]> m) m l !! x) = true <->
  (In x l \/ default false (m !! x) = true).
Proof.
  induction l as [|a l IH]; intros m x; simpl.
  - tauto.
  - rewrite IH. destruct (decide (a = x)) as [->|Hne].
    + rewrite lookup_insert_eq. simpl. tauto.
    + rewrite lookup_insert_ne by exact Hne. intuition congruence.
Qed.


Lemma exec_buy_Ok sender value ps dex s r :
  exec (CBuy sender value ps dex) s = Ok r -> buy sender value ps dex s = Ok r.
Proof. unfold exec. intros H. inv_bind H. exact H. Qed.

Lemma exec_sell_Ok sender amount success s r :
  exec (CSell sender amount success) s = Ok r -> sell sender amount success s = Ok r.
Proof. unfold exec. intros H. inv_bind H. exact H. Qed.

Lemma liquidityOf_share value :
  0 <= value ->
  value * LIQUIDITY_BPS <= liquidityOf value * BPS_DIVISOR
    < value * LIQUIDITY_BPS + 2 * BPS_DIVISOR.
Proof.
  intros Hv. unfold liquidityOf, platformFeeOf, agentFeeOf, LIQUIDITY_BPS,
    PLATFORM_FEE_BPS, AGENT_FEE_BPS, BPS_DIVISOR.
  pose proof (Z.div_mod (value * 3000) 10000 ltac:(lia)).
  pose proof (Z.mod_pos_bound (value * 3000) 10000 ltac:(lia)).
  pose proof (Z.div_mod (value * 1000) 10000 ltac:(lia)).
  pose proof (Z.mod_pos_bound (value * 1000) 10000 ltac:(lia)).
  lia.
Qed.

(** ** The claims about the contract *)

(** C10: starting from deployment, after any sequence of calls the
    liquidity reserve is at most the total ETH raised.  A successful buy adds
    the whole msg.value to totalETHRaised and only the remainder after the
    two fees (60% of it, up to rounding) to liquidityReserve; a successful
    sell leaves totalETHRaised as it is and takes a positive amount, at most
    the reserve, out of liquidityReserve. *)
Theorem reserve_at_most_raised self b0 members pf router pid s0 calls :
  constructor self b0 members pf router pid = Ok s0 -> 0 <= b0 ->
  let s := run s0 calls in
  0 <= liquidityReserve s <= totalETHRaised s /\
  (forall sender value ps dex s' effs,
      exec (CBuy sender value ps dex) s = Ok (s', effs) ->
      totalETHRaised s' = totalETHRaised s + value /\
      liquidityReserve s' = liquidityReserve s + liquidityOf value /\
      0 <= liquidityOf value <= value /\
      value * LIQUIDITY_BPS <= liquidityOf value * BPS_DIVISOR
        < value * LIQUIDITY_BPS + 2 * BPS_DIVISOR) /\
  (forall sender tokenAmount success s' effs,
      exec (CSell sender tokenAmount success) s = Ok (s', effs) ->
      totalETHRaised s' = totalETHRaised s /\
      0 <= liquidityReserve s' < liquidityReserve s).
Proof.
  intros H Hb s.
  destruct (Inv_run _ _ _ _ _ _ _ calls H Hb) as (_ & Hr0 & Hr & _).
  fold s in Hr0, Hr. split; [lia|]. split.
  - intros sender value ps dex s' effs Hx.
    apply exec_buy_Ok, buy_Ok in Hx. cbv zeta in Hx.
    destruct Hx as (_ & Hv & _ & Hfee & Hr' & Hl' & _).
    destruct (fees_nonneg value) as [? ?]; [lia|].
    pose proof (liquidityOf_share value ltac:(lia)).
    unfold liquidityOf in *. repeat split; lia.
  - intros sender amount success s' effs Hx.
    apply exec_sell_Ok, sell_Ok in Hx. cbv zeta in Hx.
    destruct Hx as (_ & _ & _ & He & _ & _ & Hr' & Hl' & _).
    repeat split; lia.
Qed.

(** The invariant after a purchase of 20 wei and a sale on the sample token. *)
Lemma reserve_at_most_raised_witness :
  let s := run sample [CBuy 50 20 true None; CSell 50 100000 true] in
  0 <= liquidityReserve s <= totalETHRaised s.
Proof.
  exact (proj1 (reserve_at_most_raised 1000 0 [1; 2; 3] 77 88 5 sample
                  [CBuy 50 20 true None; CSell 50 100000 true]
                  ltac:(vm_compute; reflexivity) ltac:(lia))).
Defined.

(** C4: every successful purchase of [value] wei announces a fee split
    whose three parts are floor(value * 3000 / 10000),
    floor(value * 1000 / 10000) and the remainder, the subtraction never
    underflows, the remainder is what is added to the liquidity reserve, the
    platform part is what is sent to the platform recipient, and the three
    parts add up to [value] exactly. *)
Theorem fee_split_exact sender value ps dex s s' effs :
  buy sender value ps dex s = Ok (s', effs) ->
  0 < value /\
  In (Emit (FeesDistributed (platformFeeOf value) (agentFeeOf value)
                            (liquidityOf value))) effs /\
  In (Pay (PlatformFeePaid (platform s) (platformFeeOf value))) effs /\
  (forall p a l, In (Emit (FeesDistributed p a l)) effs ->
     p = value * 3000 / 10000 /\
     a = value * 1000 / 10000 /\
     l = value - p - a /\
     0 <= p /\ 0 <= a /\ 0 <= l /\
     p + a + l = value) /\
  liquidityReserve s' = liquidityReserve s + liquidityOf value.
Proof.
  intros H. apply buy_Ok in H. cbv zeta in H.
  destruct H as (_ & Hv & _ & Hfee & _ & Hl & _ & _ & _ & Hrest).
  destruct (fees_nonneg value) as [Hp Ha]; [lia|].
  assert (Hparts : forall p a l,
             FeesDistributed p a l
             = FeesDistributed (platformFeeOf value) (agentFeeOf value)
                               (liquidityOf value) ->
             p = value * 3000 / 10000 /\ a = value * 1000 / 10000 /\
             l = value - p - a /\ 0 <= p /\ 0 <= a /\ 0 <= l /\
             p + a + l = value).
  { intros p a l [= -> -> ->]. unfold liquidityOf.
    repeat split; try reflexivity; lia. }
  split; [exact Hv|].
  destruct (GRADUATION_THRESHOLD <=? totalETHRaised s + value).
  - destruct Hrest as (_ & _ & np & ->).
    split; [simpl; tauto|]. split; [simpl; tauto|]. split; [|exact Hl].
    intros p a l Hin. simpl in Hin.
    destruct Hin as [Hin|[Hin|[Hin|[Hin|[Hin|[]]]]]]; try discriminate.
    injection Hin as Hin. apply Hparts. congruence.
  - destruct Hrest as (_ & _ & ->).
    split; [simpl; tauto|]. split; [simpl; tauto|]. split; [|exact Hl].
    intros p a l Hin. simpl in Hin.
    destruct Hin as [Hin|[Hin|[Hin|[]]]]; try discriminate.
    injection Hin as Hin. apply Hparts. congruence.
Qed.

(** A purchase of 1 wei on the sample token: the parts are 0, 0 and 1. *)
Lemma fee_split_exact_witness :
  exists s' effs,
    buy 50 1 true None sample = Ok (s', effs) /\
    In (Emit (FeesDistributed 0 0 1)) effs /\
    liquidityReserve s' = 1.
Proof.
  eexists _, _.
  refine ((fun H : buy 50 1 true None sample = Ok _ =>
             conj H (conj (proj1 (proj2 (fee_split_exact _ _ _ _ _ _ _ H)))
                          (proj2 (proj2 (proj2 (proj2
                             (fee_split_exact _ _ _ _ _ _ _ H))))))) _).
  vm_compute. reflexivity.
Defined.

Lemma graduations_le_1 (a : list Effect) (g g' : bool) (b : list Effect) :
  graduations a = (if g then 1 else 0)%nat ->
  graduations (a ++ b) = (if g' then 1 else 0)%nat ->
  (g = true -> g' = true) /\
  (graduations b <= 1)%nat /\
  (graduations b = 1%nat <-> g = false /\ g' = true).
Proof.
  rewrite graduations_app. intros -> Hb.
  destruct g, g'; repeat split; try lia; try congruence; intuition (try lia; try congruence).
Qed.

(** C3: from deployment on, the graduation routine completes at most once
    in any sequence of calls.  The graduated flag is set exactly when
    totalETHRaised has reached GRADUATION_THRESHOLD (10 ether); a call
    runs the routine exactly when it takes totalETHRaised from below the
    threshold to the threshold or above, so at the first crossing and at no
    later call; a set flag stays set; and once it is set every buy and every
    sell reverts, leaving the storage unchanged. *)
Theorem graduation_once self b0 members pf router pid s0 calls :
  constructor self b0 members pf router pid = Ok s0 -> 0 <= b0 ->
  let s := run s0 calls in
  GRADUATION_THRESHOLD = 10 * 10 ^ 18 /\
  (graduations (trace s0 calls) <= 1)%nat /\
  (graduations (trace s0 calls) = 1%nat <-> graduated s = true) /\
  (graduated s = true <-> GRADUATION_THRESHOLD <= totalETHRaised s) /\
  (forall c,
      (graduations (effects_of s c) <= 1)%nat /\
      (graduations (effects_of s c) = 1%nat <->
         totalETHRaised s < GRADUATION_THRESHOLD <= totalETHRaised (step s c)) /\
      (graduated s = true -> graduated (step s c) = true)) /\
  (graduated s = true ->
     (forall sender value ps dex,
         buy sender value ps dex s = Err (Revert "Already graduated") /\
         step s (CBuy sender value ps dex) = s /\
         effects_of s (CBuy sender value ps dex) = []) /\
     (forall sender tokenAmount success,
         sell sender tokenAmount success s
           = Err (Revert "Already graduated - use Uniswap") /\
         step s (CSell sender tokenAmount success) = s /\
         effects_of s (CSell sender tokenAmount success) = [])).
Proof.
  intros H Hb s.
  pose proof (Inv_run _ _ _ _ _ _ _ calls H Hb) as HI. fold s in HI.
  assert (Hn : (1 <= length members)%nat)
    by (apply constructor_Ok in H as [_ Hn]; lia).
  split; [reflexivity|].
  destruct HI as (Ig & HI').
  pose proof HI' as (_ & _ & _ & _ & _ & _ & _ & Igr).
  split; [rewrite Igr; destruct (graduated s); lia|].
  split; [rewrite Igr; destruct (graduated s); intuition (lia || congruence)|].
  split; [rewrite Ig; apply Z.leb_le|].
  split.
  - intros c.
    pose proof (Inv_step b0 _ s _ c Hn (conj Ig HI')) as (Ig' & HI'').
    destruct HI'' as (_ & _ & _ & _ & _ & _ & _ & Igr').
    destruct (graduations_le_1 _ _ _ _ Igr Igr') as (Hmono & Hle & Hone).
    split; [exact Hle|]. split; [|exact Hmono].
    rewrite Hone, Ig, Ig'. rewrite Z.leb_gt, Z.leb_le. tauto.
  - intros Hg.
    assert (Hbuy : forall sender value ps dex,
               buy sender value ps dex s = Err (Revert "Already graduated")).
    { intros. unfold buy. cbn. rewrite Hg. reflexivity. }
    assert (Hsell : forall sender tokenAmount success,
               sell sender tokenAmount success s
               = Err (Revert "Already graduated - use Uniswap")).
    { intros. unfold sell. rewrite Hg. reflexivity. }
    split; intros.
    + split; [apply Hbuy|]. unfold step, effects_of, exec.
      rewrite Hbuy. destruct (require _ _); auto.
    + split; [apply Hsell|]. unfold step, effects_of, exec.
      rewrite Hsell. destruct (require _ _); auto.
Qed.

(** The sample token graduates on a purchase of 10 ether; the purchase
    after it reverts. *)
Lemma graduation_once_witness :
  constructor 1000 0 [1; 2; 3] 77 88 5 = Ok sample /\
  (graduations (trace sample sample_calls) <= 1)%nat.
Proof.
  refine ((fun H => conj H
             (proj1 (proj2 (graduation_once 1000 0 [1; 2; 3] 77 88 5 sample
                              sample_calls H ltac:(lia))))) _).
  vm_compute. reflexivity.
Defined.

(** ** Bounds on the supply *)

Lemma priceAt_lower supply : 0 <= supply -> INITIAL_PRICE <= priceAt supply.
Proof.
  intros H. unfold priceAt.
  assert (0 <= supply / ether) by (apply Z.div_pos; [lia | reflexivity]). lia.
Qed.

Lemma tokens_le supply value :
  0 <= supply -> 0 <= value ->
  value * ether / priceAt supply <= value * 100000.
Proof.
  intros Hs Hv. pose proof (priceAt_lower supply Hs) as Hp.
  assert (Hpos : 0 < INITIAL_PRICE) by reflexivity.
  transitivity (value * ether / INITIAL_PRICE).
  - apply Z.div_le_compat_l; [|lia].
    apply Z.mul_nonneg_nonneg; [lia | discriminate].
  - replace (value * ether) with (value * 100000 * INITIAL_PRICE).
    + rewrite Z.div_mul; lia.
    + rewrite <- Z.mul_assoc. reflexivity.
Qed.

Lemma SupplyBound_step b0 n s effs c :
  (1 <= n)%nat -> Inv b0 n s effs -> SupplyBound s -> realistic c = true ->
  SupplyBound (step s c).
Proof.
  intros Hn HI [Hsup Hrai] Hreal. unfold step.
  destruct (exec c s) as [[s' effs']|f] eqn:Hexec; [|split; assumption].
  cbn [fst].
  destruct HI as (Ig & Ir0 & Ir & Is & _).
  unfold exec in Hexec. inv_bind Hexec. unfold SupplyBound.
  destruct c as [sender value ps dex|sender amt succ|dex|sender succ|value
                |sender to amt]; cbn [realistic] in Hreal.
  - apply buy_Ok in Hexec. cbv zeta in Hexec.
    destruct Hexec as (Hg & Hv & Ht & _ & Hr & _ & Hg' & _ & _ & Hrest).
    pose proof (tokens_le (totalSupply s) value Is ltac:(lia)) as Htok.
    rewrite Hg in *. rewrite Hg', Hr. bools.
    destruct (GRADUATION_THRESHOLD <=? totalETHRaised s + value) eqn:Hc.
    + destruct Hrest as (-> & _).
      pose proof (Z.mul_div_le
                    (totalSupply s + value * ether / priceAt (totalSupply s)) 2
                    ltac:(lia)).
      split; lia.
    + destruct Hrest as (-> & _). bools. split; lia.
  - apply sell_Ok in Hexec. cbv zeta in Hexec.
    destruct Hexec as (Hg & Ht & _ & _ & _ & -> & -> & _ & _ & -> & _).
    rewrite Hg in *. split; lia.
  - apply graduate_Ok in Hexec as (Hg & Ht & _).
    rewrite Hg in Ig. symmetry in Ig. bools. lia.
  - apply claimAgentFees_Ok in Hexec. cbv zeta in Hexec.
    destruct Hexec as (_ & _ & _ & _ & _ & -> & _). split; assumption.
  - unfold receive in Hexec. inv_ops. split; assumption.
  - inv_bind Hexec. apply transfer_Ok in E0 as [b ->]. inv_ops.
    split; assumption.
Qed.

Lemma SupplyBound_run self b0 members pf router pid s0 calls :
  constructor self b0 members pf router pid = Ok s0 -> 0 <= b0 ->
  Forall (fun c => realistic c = true) calls ->
  SupplyBound (run s0 calls).
Proof.
  intros H Hb. induction calls as [|c calls IH] using rev_ind; intros Hall.
  - apply constructor_Ok in H as [-> _]. split; cbn; [lia | reflexivity].
  - apply Forall_app in Hall as [Hcalls Hc]. inversion Hc; subst.
    rewrite run_snoc.
    eapply SupplyBound_step; [| eapply Inv_run; eassumption | auto | auto].
    apply constructor_Ok in H as [_ Hn]. lia.
Qed.

Lemma add_ok a b : a + b <= MAX_UINT256 -> add a b = Ok (a + b).
Proof. intros H. unfold add. apply Z.leb_le in H. rewrite H. reflexivity. Qed.

Lemma mul_ok a b : a * b <= MAX_UINT256 -> mul a b = Ok (a * b).
Proof. intros H. unfold mul. apply Z.leb_le in H. rewrite H. reflexivity. Qed.

Lemma div_ok a b : b <> 0 -> div a b = Ok (a / b).
Proof. intros H. unfold div. apply Z.eqb_neq in H. rewrite H. reflexivity. Qed.

(** With the supply bounded, neither the price nor the product of the sale
    formula leaves uint256. *)
Lemma sale_fits s tokenAmount :
  0 <= liquidityReserve s <= totalETHRaised s -> 0 <= totalSupply s ->
  SupplyBound s -> 0 < tokenAmount <= totalSupply s ->
  priceAt (totalSupply s) <= MAX_UINT256 /\
  tokenAmount * priceAt (totalSupply s) <= MAX_UINT256.
Proof.
  intros Hr Hs [Hsup Hrai] Ht.
  set (SB := 150000 * (GRADUATION_THRESHOLD + 2 ^ 128)).
  set (PB := INITIAL_PRICE + SB / ether).
  assert (HSB : totalSupply s <= SB).
  { unfold SB. destruct (graduated s); lia. }
  assert (HPB : priceAt (totalSupply s) <= PB).
  { unfold priceAt, PB.
    assert (totalSupply s / ether <= SB / ether)
      by (apply Z.div_le_mono; [reflexivity | exact HSB]).
    lia. }
  assert (Hp0 : 0 <= priceAt (totalSupply s))
    by (pose proof (priceAt_lower _ Hs); unfold INITIAL_PRICE in *; lia).
  assert (HPM : PB <= MAX_UINT256) by (vm_compute; discriminate).
  assert (HSPM : SB * PB <= MAX_UINT256) by (vm_compute; discriminate).
  split; [lia|].
  transitivity (SB * PB); [|exact HSPM].
  apply Z.mul_le_mono_nonneg; lia.
Qed.

Lemma getCurrentPrice_ok s :
  0 <= totalSupply s -> priceAt (totalSupply s) <= MAX_UINT256 ->
  getCurrentPrice s = Ok (priceAt (totalSupply s)).
Proof.
  intros Hs Hp. unfold getCurrentPrice, priceAt in *.
  assert (0 <= totalSupply s / ether) by (apply Z.div_pos; [lia | reflexivity]).
  assert (0 <= INITIAL_PRICE) by discriminate.
  rewrite div_ok by discriminate. cbn [bind].
  unfold PRICE_INCREMENT. rewrite mul_ok by lia. cbn [bind].
  rewrite Z.mul_1_r. apply add_ok. lia.
Qed.







(** After graduation the reserve has left the contract while
    liquidityReserve keeps its value, so balance - liquidityReserve
    underflows: on the graduated sample token a member's claim panics. *)
Remark claim_after_graduation_panics :
  let s := run sample [CBuy 50 (10 * ether) true (Some 999)] in
  graduated s = true /\
  ethBalance s < liquidityReserve s /\
  claimAgentFees 1 true s = Err (Panic 17).
Proof. vm_compute. repeat split; reflexivity. Qed.


End CurveFacts.

(* ===================================================================== *)
(** * Facts about the collaboration service                               *)
(* ===================================================================== *)

Module CollaborationFacts.
Import CollaborationService.

(** ** Lists of rows *)

Lemma find_existsb {A} (f : A -> bool) (l : list A) (a : A) :
  List.find f l = Some a -> existsb f l = true.
Proof.
  intros H. apply existsb_exists. exists a.
  apply find_some in H. exact H.
Qed.

Lemma keys_unique (st : Store) (a b : Collaboration) :
  keys_ok st -> In a (collaborations st) -> In b (collaborations st) ->
  id a = id b -> a = b.
Proof.
  intros Hk Ha Hb Hid.
  apply list_elem_of_In, list_elem_of_lookup in Ha as [i Hi].
  apply list_elem_of_In, list_elem_of_lookup in Hb as [j Hj].
  pose proof (Hk _ _ Hi). pose proof (Hk _ _ Hj).
  assert (i = j) by lia. subst j. congruence.
Qed.

Lemma keys_range (st : Store) (c : Collaboration) :
  keys_ok st -> In c (collaborations st) ->
  1 <= id c <= Z.of_nat (length (collaborations st)).
Proof.
  intros Hk Hc.
  apply list_elem_of_In, list_elem_of_lookup in Hc as [i Hi].
  pose proof (Hk _ _ Hi). apply lookup_lt_Some in Hi. lia.
Qed.

(** Saving a changed copy of a stored row rewrites that row only. *)
Lemma save_is_update (st : Store) (c : Collaboration)
    (g : Collaboration -> Collaboration) :
  keys_ok st -> In c (collaborations st) ->
  map (fun r => if id r =? id c then g c else r) (collaborations st)
  = update_row (id c) g (collaborations st).
Proof.
  intros Hk Hc. unfold update_row. apply map_ext_in. intros r Hr.
  destruct (Z.eqb_spec (id r) (id c)) as [Heq|]; [|reflexivity].
  rewrite (keys_unique st r c Hk Hr Hc Heq). reflexivity.
Qed.

Lemma save_collaboration_stored (st : Store) (c c' : Collaboration) :
  In c (collaborations st) -> id c' = id c ->
  save_collaboration c' st
  = (Returned c',
     mkStore (products st)
             (map (fun r => if id r =? id c then c' else r) (collaborations st))
             (votes st)).
Proof.
  intros Hc Hid. unfold save_collaboration. rewrite Hid.
  assert (He : existsb (fun r => id r =? id c) (collaborations st) = true).
  { apply existsb_exists. exists c. split; [exact Hc | apply Z.eqb_refl]. }
  rewrite He. reflexivity.
Qed.

Lemma mapM_findOne (ids : list ID) (st : Store) :
  mapM product_findOne ids st
  = (Returned (map (fun pid => List.find (fun p => product_id p =? pid)
                                         (products st)) ids), st).
Proof.
  induction ids as [|a ids IH]; [reflexivity|].
  cbn [mapM]. unfold bind at 1. unfold product_findOne at 1.
  unfold bind at 1. rewrite IH. reflexivity.
Qed.

(** ** What each call does to the tables *)

Lemma apply_create (st : Store) (q : string) (ags : list ID) :
  let found := map (fun pid => List.find (fun p => product_id p =? pid)
                                         (products st)) ags in
  apply st (CreateCollaboration q ags)
  = mkStore (products st)
      (collaborations st ++
         [mkCollaboration (fresh_id (collaborations st)) q
            (map (option_map product_id) found) PENDING None None None
            "0" false None 0 (Z.of_nat (length found))])
      (votes st).
Proof.
  cbv zeta. unfold apply, createCollaboration, bind.
  rewrite mapM_findOne. reflexivity.
Qed.

Lemma recordVote_eq (st : Store) now cid aid tx :
  keys_ok st ->
  let v := mkVote (fresh_id (votes st)) (option_map id (lookup st cid))
             (option_map product_id
                (List.find (fun p => product_id p =? aid) (products st)))
             tx now in
  recordVote now cid aid tx st
  = match lookup st cid with
    | None =>
        (Thrown (TypeError "collaboration.votesReceived"),
         mkStore (products st) (collaborations st) (votes st ++ [v]))
    | Some _ =>
        (Returned v,
         mkStore (products st) (update_row cid voted (collaborations st))
                 (votes st ++ [v]))
    end.
Proof.
  intros Hk. cbv zeta.
  unfold recordVote, bind, findOne, product_findOne, insert_vote, lookup.
  cbn [products collaborations votes].
  destruct (List.find (fun c => id c =? cid) (collaborations st)) as [c|] eqn:Hf;
    [|reflexivity].
  apply find_some in Hf as [Hin Hid]. apply Z.eqb_eq in Hid.
  match goal with
  | |- context [save_collaboration ?c' ?st'] =>
      rewrite (save_collaboration_stored st' c c' Hin eq_refl)
  end.
  cbn [products collaborations votes ret]. fold (voted c).
  rewrite (save_is_update st c voted Hk Hin). rewrite Hid. reflexivity.
Qed.

Lemma updateTokenLaunch_eq (st : Store) q a n s :
  keys_ok st ->
  updateTokenLaunch q a n s st
  = match List.find (fun c => String.eqb (quorumId c) q) (collaborations st) with
    | None => (Thrown (TypeError "collaboration.tokenAddress"), st)
    | Some c =>
        (Returned (with_token a n s c),
         mkStore (products st)
                 (update_row (id c) (with_token a n s) (collaborations st))
                 (votes st))
    end.
Proof.
  intros Hk. unfold updateTokenLaunch, bind, findByQuorumId.
  destruct (List.find _ (collaborations st)) as [c|] eqn:Hf; [|reflexivity].
  apply find_some in Hf as [Hin _].
  rewrite (save_collaboration_stored st c (with_token a n s c) Hin eq_refl).
  rewrite (save_is_update st c (with_token a n s) Hk Hin). reflexivity.
Qed.

Lemma updateMarketCap_eq (st : Store) t m :
  keys_ok st ->
  updateMarketCap t m st
  = match List.find (fun c => opt_string_eqb (tokenAddress c) t)
                    (collaborations st) with
    | None => (Thrown (TypeError "collaboration.marketCap"), st)
    | Some c =>
        (Returned (with_marketCap m c),
         mkStore (products st)
                 (update_row (id c) (with_marketCap m) (collaborations st))
                 (votes st))
    end.
Proof.
  intros Hk. unfold updateMarketCap, bind, findByTokenAddress.
  destruct (List.find _ (collaborations st)) as [c|] eqn:Hf; [|reflexivity].
  apply find_some in Hf as [Hin _].
  rewrite (save_collaboration_stored st c (with_marketCap m c) Hin eq_refl).
  rewrite (save_is_update st c (with_marketCap m) Hk Hin). reflexivity.
Qed.

(** The loop over the agents writes to the product table only. *)
Lemma updateAgentSuccessRate_tables (agentId : ID) (st : Store) :
  collaborations (snd (updateAgentSuccessRate agentId st)) = collaborations st /\
  votes (snd (updateAgentSuccessRate agentId st)) = votes st.
Proof.
  unfold updateAgentSuccessRate, bind, findByAgentId, product_update.
  cbn [products collaborations votes].
  destruct (existsb _ (products st)); split; reflexivity.
Qed.

Lemma rate_loop_tables (ags : list (option ID)) : forall st : Store,
  collaborations (snd (rate_loop ags st)) = collaborations st /\
  votes (snd (rate_loop ags st)) = votes st.
Proof.
  unfold rate_loop.
  induction ags as [|a ags IH]; intros st; [split; reflexivity|].
  cbn [forEach]. unfold bind.
  destruct a as [agentId|]; [|split; reflexivity].
  pose proof (updateAgentSuccessRate_tables agentId st) as [H1 H2].
  destruct (updateAgentSuccessRate agentId st) as [[u|e] st']; cbn [snd] in *.
  - destruct (IH st') as [IH1 IH2]. rewrite IH1, IH2. split; assumption.
  - split; assumption.
Qed.

Lemma markGraduated_eq (st : Store) now t :
  keys_ok st ->
  markGraduated now t st
  = match List.find (fun c => opt_string_eqb (tokenAddress c) t)
                    (collaborations st) with
    | None => (Thrown (TypeError "collaboration.graduated"), st)
    | Some c =>
        match rate_loop (agents c) st with
        | (Thrown e, st1) => (Thrown e, st1)
        | (Returned _, st1) =>
            (Returned (with_graduation now c),
             mkStore (products st1)
                     (update_row (id c) (with_graduation now) (collaborations st))
                     (votes st))
        end
    end.
Proof.
  intros Hk. unfold markGraduated, bind at 1, findByTokenAddress.
  destruct (List.find _ (collaborations st)) as [c|] eqn:Hf; [|reflexivity].
  apply find_some in Hf as [Hin _].
  unfold bind. cbn [agents with_graduation].
  destruct (rate_loop_tables (agents c) st) as [Hc Hv].
  destruct (rate_loop (agents c) st) as [[u|e] st1]; [|reflexivity].
  cbn [snd] in Hc, Hv.
  assert (Hin1 : In c (collaborations st1)) by (rewrite Hc; exact Hin).
  rewrite (save_collaboration_stored st1 c (with_graduation now c) Hin1 eq_refl).
  assert (Hk1 : keys_ok st1) by (unfold keys_ok; rewrite Hc; exact Hk).
  rewrite (save_is_update st1 c (with_graduation now) Hk1 Hin1).
  rewrite Hc, Hv. reflexivity.
Qed.

(** ** Well-formedness is kept by every call *)

Lemma lookup_map {A B} (f : A -> B) (l : list A) : forall i : nat,
  map f l !! i = option_map f (l !! i).
Proof.
  induction l as [|a l IH]; intros [|i]; try reflexivity. apply IH.
Qed.

Lemma votes_of_eq (st st' : Store) (cid : ID) :
  votes st' = votes st -> votes_of st' cid = votes_of st cid.
Proof. unfold votes_of. intros ->. reflexivity. Qed.

Lemma votes_of_snoc (st st' : Store) (v : Vote) (cid : ID) :
  votes st' = votes st ++ [v] ->
  votes_of st' cid
  = votes_of st cid ++
    (if bool_decide (vote_collaboration v = Some cid) then [v] else []).
Proof. unfold votes_of. intros ->. rewrite List.filter_app. reflexivity. Qed.

Lemma well_formed_ext (st st' : Store) :
  collaborations st' = collaborations st -> votes st' = votes st ->
  well_formed st -> well_formed st'.
Proof.
  intros Hc Hv (Hk & Hr & Hn). unfold well_formed, keys_ok, refs_ok, counts_ok.
  rewrite Hc, Hv. split; [exact Hk|]. split; [exact Hr|].
  intros c Hin. rewrite (votes_of_eq st st' _ Hv). auto.
Qed.

Lemma well_formed_update (st st' : Store) (cid : ID)
    (g : Collaboration -> Collaboration) :
  (forall r, id (g r) = id r) ->
  (forall r, votesReceived (g r) = votesReceived r) ->
  collaborations st' = update_row cid g (collaborations st) ->
  votes st' = votes st ->
  well_formed st -> well_formed st'.
Proof.
  intros Hid Hvr Hc Hv (Hk & Hr & Hn).
  unfold well_formed, keys_ok, refs_ok, counts_ok.
  rewrite Hc, Hv. unfold update_row. split; [|split].
  - intros i c. rewrite lookup_map.
    destruct (collaborations st !! i) as [r|] eqn:Hi; [|discriminate].
    intros [= <-]. specialize (Hk _ _ Hi).
    destruct (id r =? cid); [rewrite Hid|]; exact Hk.
  - rewrite length_map. exact Hr.
  - intros c Hin. apply in_map_iff in Hin as (r & <- & Hin).
    rewrite (votes_of_eq st st' _ Hv). specialize (Hn r Hin).
    destruct (id r =? cid); [rewrite Hid, Hvr|]; exact Hn.
Qed.

Lemma well_formed_create (st st' : Store) (c : Collaboration) :
  collaborations st' = collaborations st ++ [c] ->
  votes st' = votes st ->
  id c = fresh_id (collaborations st) -> votesReceived c = 0 ->
  well_formed st -> well_formed st'.
Proof.
  intros Hc Hv Hid Hvr (Hk & Hr & Hn).
  unfold well_formed, keys_ok, refs_ok, counts_ok.
  rewrite Hc, Hv. unfold fresh_id in Hid. split; [|split].
  - intros i r Hi. apply lookup_app_Some in Hi as [Hi|[Hlen Hi]].
    + exact (Hk _ _ Hi).
    + destruct (i - length (collaborations st))%nat as [|k] eqn:Hd;
        [|destruct k; discriminate].
      injection Hi as <-. lia.
  - intros v cid Hin Href. specialize (Hr v cid Hin Href).
    rewrite length_app. cbn [length]. lia.
  - intros r Hin. rewrite (votes_of_eq st st' _ Hv).
    apply in_app_or in Hin as [Hin|[<-|[]]]; [exact (Hn r Hin)|].
    rewrite Hvr. unfold votes_of.
    assert (Hnone : List.filter
                      (fun v => bool_decide (vote_collaboration v = Some (id c)))
                      (votes st) = []).
    { destruct (List.filter _ (votes st)) as [|v l] eqn:Hf; [reflexivity|].
      assert (Hv' : In v (List.filter
                 (fun v => bool_decide (vote_collaboration v = Some (id c)))
                 (votes st))) by (rewrite Hf; left; reflexivity).
      apply filter_In in Hv' as [Hv1 Hv2]. apply bool_decide_eq_true in Hv2.
      specialize (Hr v (id c) Hv1 Hv2). lia. }
    rewrite Hnone. reflexivity.
Qed.

Lemma well_formed_vote (st st' : Store) (v : Vote) (cid : ID) :
  votes st' = votes st ++ [v] ->
  vote_collaboration v = option_map id (lookup st cid) ->
  collaborations st'
  = match lookup st cid with
    | None => collaborations st
    | Some _ => update_row cid voted (collaborations st)
    end ->
  well_formed st -> well_formed st'.
Proof.
  intros Hv Href Hc (Hk & Hr & Hn).
  unfold lookup in *.
  destruct (List.find (fun c => id c =? cid) (collaborations st)) as [c|] eqn:Hf.
  - apply find_some in Hf as [Hin Hid]. apply Z.eqb_eq in Hid.
    cbn [option_map] in Href. rewrite Hid in Href.
    pose proof (keys_range st c Hk Hin) as Hrange. rewrite Hid in Hrange.
    unfold well_formed, keys_ok, refs_ok, counts_ok.
    rewrite Hc, Hv. unfold update_row. split; [|split].
    + intros i r. rewrite lookup_map.
      destruct (collaborations st !! i) as [r0|] eqn:Hi; [|discriminate].
      intros [= <-]. specialize (Hk _ _ Hi).
      destruct (id r0 =? cid); exact Hk.
    + rewrite length_map. intros w k Hw Hwk.
      apply in_app_or in Hw as [Hw|[<-|[]]]; [exact (Hr w k Hw Hwk)|].
      rewrite Href in Hwk. injection Hwk as <-. exact Hrange.
    + intros r Hr'. apply in_map_iff in Hr' as (r0 & <- & Hin0).
      specialize (Hn r0 Hin0).
      destruct (Z.eqb_spec (id r0) cid) as [Heq|Hne].
      * cbn [voted with_votes id votesReceived].
        rewrite (votes_of_snoc st st' v _ Hv), Href, Heq.
        rewrite bool_decide_eq_true_2 by reflexivity.
        rewrite length_app. cbn [length]. rewrite <- Heq. lia.
      * rewrite (votes_of_snoc st st' v _ Hv), Href.
        rewrite bool_decide_eq_false_2 by congruence.
        rewrite app_nil_r. exact Hn.
  - cbn [option_map] in Href.
    unfold well_formed, keys_ok, refs_ok, counts_ok.
    rewrite Hc, Hv. split; [|split].
    + exact Hk.
    + intros w k Hw Hwk.
      apply in_app_or in Hw as [Hw|[<-|[]]]; [exact (Hr w k Hw Hwk)|].
      congruence.
    + intros r Hin. rewrite (votes_of_snoc st st' v _ Hv), Href.
      rewrite bool_decide_eq_false_2 by congruence.
      rewrite app_nil_r. exact (Hn r Hin).
Qed.

Lemma well_formed_apply (st : Store) (op : Op) :
  well_formed st -> well_formed (apply st op).
Proof.
  intros Hwf. pose proof Hwf as (Hk & _).
  destruct op as [q ags|now cid aid tx|q a n s|t m|now t].
  - rewrite apply_create. cbv zeta.
    eapply well_formed_create; [reflexivity | reflexivity | | | exact Hwf];
      reflexivity.
  - unfold apply. rewrite (recordVote_eq st now cid aid tx Hk). cbv zeta.
    destruct (lookup st cid) as [c|] eqn:Hl; cbn [snd];
      (eapply (well_formed_vote st _ _ cid); [| | | exact Hwf]);
      rewrite ?Hl; reflexivity.
  - unfold apply. rewrite (updateTokenLaunch_eq st q a n s Hk).
    destruct (List.find _ (collaborations st)) as [c|]; [|exact Hwf].
    eapply (well_formed_update st _ (id c) (with_token a n s));
      [| | reflexivity | reflexivity | exact Hwf]; reflexivity.
  - unfold apply. rewrite (updateMarketCap_eq st t m Hk).
    destruct (List.find _ (collaborations st)) as [c|]; [|exact Hwf].
    eapply (well_formed_update st _ (id c) (with_marketCap m));
      [| | reflexivity | reflexivity | exact Hwf]; reflexivity.
  - unfold apply. rewrite (markGraduated_eq st now t Hk).
    destruct (List.find _ (collaborations st)) as [c|]; [|exact Hwf].
    destruct (rate_loop_tables (agents c) st) as [Hc Hv].
    destruct (rate_loop (agents c) st) as [[u|e] st1]; cbn [snd] in *.
    + eapply (well_formed_update st _ (id c) (with_graduation now));
        [| | reflexivity | reflexivity | exact Hwf]; reflexivity.
    + exact (well_formed_ext st st1 Hc Hv Hwf).
Qed.

Lemma applyAll_snoc (st : Store) (ops : list Op) (op : Op) :
  applyAll st (ops ++ [op]) = apply (applyAll st ops) op.
Proof. unfold applyAll. rewrite foldl_app. reflexivity. Qed.

Lemma well_formed_reachable (ps : list Product) (ops : list Op) :
  well_formed (applyAll (initial ps) ops).
Proof.
  induction ops as [|op ops IH] using rev_ind.
  - split; [|split].
    + intros i c Hi. destruct i; discriminate.
    + intros v cid [].
    + intros c [].
  - rewrite applyAll_snoc. apply well_formed_apply, IH.
Qed.

(** ** Looking rows up after an update *)

Lemma lookup_update_same (cid : ID) (g : Collaboration -> Collaboration)
    (rows : list Collaboration) :
  (forall r, id (g r) = id r) ->
  List.find (fun c => id c =? cid) (update_row cid g rows)
  = option_map g (List.find (fun c => id c =? cid) rows).
Proof.
  intros Hid. unfold update_row.
  induction rows as [|r rows IH]; [reflexivity|]. cbn [map List.find].
  destruct (Z.eqb_spec (id r) cid) as [Heq|Hne].
  - rewrite Hid. apply Z.eqb_eq in Heq. rewrite Heq. reflexivity.
  - apply Z.eqb_neq in Hne. rewrite Hne. exact IH.
Qed.

Lemma lookup_update_other (cid cid' : ID) (g : Collaboration -> Collaboration)
    (rows : list Collaboration) :
  (forall r, id (g r) = id r) -> cid' <> cid ->
  List.find (fun c => id c =? cid') (update_row cid g rows)
  = List.find (fun c => id c =? cid') rows.
Proof.
  intros Hid Hne. unfold update_row.
  induction rows as [|r rows IH]; [reflexivity|]. cbn [map List.find].
  destruct (Z.eqb_spec (id r) cid) as [Heq|Hne'].
  - rewrite Hid, Heq.
    assert (Hf : (cid =? cid') = false) by (apply Z.eqb_neq; congruence).
    rewrite Hf. exact IH.
  - rewrite IH. reflexivity.
Qed.

Lemma lookup_stored (st : Store) (c : Collaboration) :
  keys_ok st -> In c (collaborations st) -> lookup st (id c) = Some c.
Proof.
  intros Hk Hin. unfold lookup.
  destruct (List.find (fun r => id r =? id c) (collaborations st)) as [r|] eqn:Hf.
  - apply find_some in Hf as [Hr Hid]. apply Z.eqb_eq in Hid.
    rewrite (keys_unique st r c Hk Hr Hin Hid). reflexivity.
  - pose proof (find_none _ _ Hf c Hin) as Hno. cbn in Hno.
    rewrite Z.eqb_refl in Hno. discriminate.
Qed.





(** ** The claims about the service *)








(** C6 as stated fails: a second launch event for the same collaboration
    replaces the stored token address, name and symbol. *)
Lemma token_launch_counterexample :
  let first := applyAll (initial sample_products)
                 [CreateCollaboration "q1" [1; 2; 3];
                  UpdateTokenLaunch "q1" "0xA" "Alpha" "ALP"] in
  let second := apply first (UpdateTokenLaunch "q1" "0xB" "Beta" "BET") in
  option_map tokenAddress (lookup first 1) = Some (Some "0xA") /\
  option_map tokenAddress (lookup second 1) = Some (Some "0xB") /\
  option_map tokenName (lookup second 1) = Some (Some "Beta") /\
  option_map tokenSymbol (lookup second 1) = Some (Some "BET").
Proof. vm_compute. repeat split; reflexivity. Qed.

(** C6, amended: in every store reached through the service, every
    updateTokenLaunch for a quorum id that has a collaboration returns
    normally and stores the address, name and symbol it was given, whether or
    not the collaboration already had a token, and sets the status to ACTIVE;
    the other fields of that collaboration and all other collaborations are
    unchanged. *)
Theorem token_launch_overwrites (ps : list Product) (ops : list Op)
    (q a n s : string) (c : Collaboration) :
  let st := applyAll (initial ps) ops in
  List.find (fun c => String.eqb (quorumId c) q) (collaborations st) = Some c ->
  let r := updateTokenLaunch q a n s st in
  exists c',
    fst r = Returned c' /\
    lookup (snd r) (id c) = Some c' /\
    tokenAddress c' = Some a /\ tokenName c' = Some n /\
    tokenSymbol c' = Some s /\ status c' = ACTIVE /\
    (id c', quorumId c', agents c', marketCap c', graduated c',
     graduatedAt c', votesReceived c', requiredVotes c')
    = (id c, quorumId c, agents c, marketCap c, graduated c,
       graduatedAt c, votesReceived c, requiredVotes c) /\
    (forall cid', cid' <> id c -> lookup (snd r) cid' = lookup st cid').
Proof.
  intros st Hf r. destruct (well_formed_reachable ps ops) as (Hk & _).
  fold st in Hk. unfold r. rewrite (updateTokenLaunch_eq st q a n s Hk), Hf.
  apply find_some in Hf as [Hin _].
  exists (with_token a n s c). cbn [fst snd].
  unfold lookup at 1 2. cbn [collaborations].
  split; [reflexivity|]. split.
  - rewrite lookup_update_same by reflexivity.
    fold (lookup st (id c)). rewrite (lookup_stored st c Hk Hin). reflexivity.
  - repeat (split; [reflexivity|]).
    intros cid' Hne. apply lookup_update_other; [reflexivity | exact Hne].
Qed.

(** A second launch event, with another address. *)
Lemma token_launch_overwrites_witness :
  let st := applyAll (initial sample_products)
              [CreateCollaboration "q1" [1; 2; 3];
               UpdateTokenLaunch "q1" "0xA" "Alpha" "ALP"] in
  exists c,
    List.find (fun c => String.eqb (quorumId c) "q1") (collaborations st) = Some c /\
    exists c',
      fst (updateTokenLaunch "q1" "0xB" "Beta" "BET" st) = Returned c' /\
      tokenAddress c' = Some "0xB".
Proof.
  cbv zeta. eexists.
  refine ((fun H => conj H
             (match token_launch_overwrites sample_products
                      [CreateCollaboration "q1" [1; 2; 3];
                       UpdateTokenLaunch "q1" "0xA" "Alpha" "ALP"]
                      "q1" "0xB" "Beta" "BET" _ H with
              | ex_intro _ c' (conj H1 (conj _ (conj H3 _))) =>
                  ex_intro _ c' (conj H1 H3)
              end)) _).
  vm_compute. reflexivity.
Defined.

(** ** The rate loop returns when the agents are stored products *)

Lemma product_ids_update (pid : ID) (cnt : Z) (rate : Q) (x : ID)
    (rows : list Product) :
  existsb (fun p => product_id p =? x)
          (map (fun p => if product_id p =? pid then mkProduct pid cnt rate else p)
               rows)
  = existsb (fun p => product_id p =? x) rows.
Proof.
  induction rows as [|p rows IH]; [reflexivity|]. cbn [map existsb].
  rewrite IH. destruct (Z.eqb_spec (product_id p) pid) as [Heq|];
    [|reflexivity].
  cbn [product_id]. rewrite Heq. reflexivity.
Qed.

Lemma forallb_ext {A} (f g : A -> bool) (l : list A) :
  (forall a, f a = g a) -> forallb f l = forallb g l.
Proof.
  intros H. induction l as [|a l IH]; [reflexivity|].
  cbn [forallb]. rewrite H, IH. reflexivity.
Qed.

Lemma rate_loop_returns (ags : list (option ID)) : forall st : Store,
  forallb (known st) ags = true ->
  exists st1, rate_loop ags st = (Returned tt, st1).
Proof.
  unfold rate_loop.
  induction ags as [|a ags IH]; intros st Hall; [eexists; reflexivity|].
  cbn [forallb] in Hall. apply andb_true_iff in Hall as [Ha Hall].
  destruct a as [pid|]; [|discriminate]. cbn [known] in Ha.
  cbn [forEach]. unfold bind at 1.
  unfold updateAgentSuccessRate, bind at 1, findByAgentId, product_update.
  cbn [products collaborations votes]. rewrite Ha.
  apply IH. rewrite <- Hall. apply forallb_ext. intros [x|]; [|reflexivity].
  cbn [known products]. apply product_ids_update.
Qed.

(** C9 as stated fails: a second graduation event for a collaboration that
    is already COMPLETED replaces graduatedAt by the time of the second
    event. *)
Lemma graduation_counterexample :
  let first := applyAll (initial sample_products)
                 [CreateCollaboration "q1" [1; 2; 3];
                  UpdateTokenLaunch "q1" "0xA" "Alpha" "ALP";
                  MarkGraduated 100 "0xA"] in
  let second := apply first (MarkGraduated 200 "0xA") in
  option_map status (lookup first 1) = Some COMPLETED /\
  option_map graduatedAt (lookup first 1) = Some (Some 100) /\
  option_map status (lookup second 1) = Some COMPLETED /\
  option_map graduatedAt (lookup second 1) = Some (Some 200).
Proof. vm_compute. repeat split; reflexivity. Qed.

(** C9, amended: in every store reached through the service, markGraduated
    for a token address that has a collaboration whose agents are stored
    products returns normally, sets graduated to true, the status to
    COMPLETED and graduatedAt to the time of this call, whether or not the
    collaboration was already COMPLETED; the other fields of that
    collaboration and all other collaborations are unchanged.  Repeating
    the call is thus idempotent on graduated and status, and graduatedAt holds
    the latest observation. *)
Theorem graduation_overwrites (ps : list Product) (ops : list Op)
    (now : Date) (t : string) (c : Collaboration) :
  let st := applyAll (initial ps) ops in
  List.find (fun c => opt_string_eqb (tokenAddress c) t) (collaborations st)
    = Some c ->
  agents_known st c = true ->
  let r := markGraduated now t st in
  exists c',
    fst r = Returned c' /\
    lookup (snd r) (id c) = Some c' /\
    graduated c' = true /\ graduatedAt c' = Some now /\ status c' = COMPLETED /\
    (id c', quorumId c', agents c', tokenAddress c', tokenName c',
     tokenSymbol c', marketCap c', votesReceived c', requiredVotes c')
    = (id c, quorumId c, agents c, tokenAddress c, tokenName c,
       tokenSymbol c, marketCap c, votesReceived c, requiredVotes c) /\
    (forall cid', cid' <> id c -> lookup (snd r) cid' = lookup st cid').
Proof.
  intros st Hf Hknown r. destruct (well_formed_reachable ps ops) as (Hk & _).
  fold st in Hk. unfold r. rewrite (markGraduated_eq st now t Hk), Hf.
  apply find_some in Hf as [Hin _].
  destruct (rate_loop_returns (agents c) st Hknown) as [st1 Hloop].
  rewrite Hloop. exists (with_graduation now c). cbn [fst snd].
  unfold lookup at 1 2. cbn [collaborations].
  split; [reflexivity|]. split.
  - rewrite lookup_update_same by reflexivity.
    fold (lookup st (id c)). rewrite (lookup_stored st c Hk Hin). reflexivity.
  - repeat (split; [reflexivity|]).
    intros cid' Hne. apply lookup_update_other; [reflexivity | exact Hne].
Qed.

(** A second graduation event, at a later time. *)
Lemma graduation_overwrites_witness :
  let st := applyAll (initial sample_products)
              [CreateCollaboration "q1" [1; 2; 3];
               UpdateTokenLaunch "q1" "0xA" "Alpha" "ALP";
               MarkGraduated 100 "0xA"] in
  exists c,
    List.find (fun c => opt_string_eqb (tokenAddress c) "0xA") (collaborations st)
      = Some c /\
    agents_known st c = true /\
    exists c',
      fst (markGraduated 200 "0xA" st) = Returned c' /\
      graduatedAt c' = Some 200.
Proof.
  cbv zeta. eexists.
  refine ((fun H K => conj H (conj K
             (match graduation_overwrites sample_products
                      [CreateCollaboration "q1" [1; 2; 3];
                       UpdateTokenLaunch "q1" "0xA" "Alpha" "ALP";
                       MarkGraduated 100 "0xA"]
                      200 "0xA" _ H K with
              | ex_intro _ c' (conj H1 (conj _ (conj _ (conj H4 _)))) =>
                  ex_intro _ c' (conj H1 H4)
              end))) _ _).
  - vm_compute. reflexivity.
  - vm_compute. reflexivity.
Defined.

End CollaborationFacts.

(* ===================================================================== *)
(** * Further facts about the bonding-curve contract                      *)
(* ===================================================================== *)

Module CurveExtras.
Import BondingCurve CurveFacts.

(** ** Constructor *)

(** The constructor succeeds exactly for three to five members and non-zero
    platform and router addresses; the storage it leaves has empty books, is
    not graduated, and marks as members exactly the addresses given. *)
Theorem constructor_accepts self b0 members pf router pid :
  (3 <= length members <= 5)%nat /\ pf <> 0 /\ router <> 0 <->
  exists s0,
    constructor self b0 members pf router pid = Ok s0 /\
    totalSupply s0 = 0 /\ totalETHRaised s0 = 0 /\ liquidityReserve s0 = 0 /\
    graduated s0 = false /\ ethBalance s0 = b0 /\
    getQuorumMembers s0 = members /\
    (forall a, member s0 a = true <-> In a members).
Proof.
  split.
  - intros (Hn & Hp & Hr). unfold constructor. cbv zeta.
    assert (H1 : (3 <=? Z.of_nat (length members))
                 && (Z.of_nat (length members) <=? 5) = true).
    { apply andb_true_iff. split; apply Z.leb_le; lia. }
    apply Z.eqb_neq in Hp, Hr. rewrite H1, Hp, Hr. cbn [negb require bind].
    eexists. split; [reflexivity|]. cbn.
    repeat (split; [reflexivity|]).
    intros a. unfold member. cbn. rewrite foldl_insert_lookup, lookup_empty.
    cbn. intuition congruence.
  - intros (s0 & H & _). unfold constructor in H. cbv zeta in H.
    repeat inv_bind H. inv_ops. bools.
    repeat match goal with
    | Hx : negb _ = true |- _ => apply negb_true_iff, Z.eqb_neq in Hx
    end.
    repeat split; auto; lia.
Qed.

(** Three members. *)
Lemma constructor_accepts_witness :
  exists s0,
    constructor 1000 0 [1; 2; 3] 77 88 5 = Ok s0 /\
    getQuorumMembers s0 = [1; 2; 3] /\ graduated s0 = false.
Proof.
  destruct (proj1 (constructor_accepts 1000 0 [1; 2; 3] 77 88 5)
              ltac:(cbn; lia))
    as (s0 & H & _ & _ & _ & Hg & _ & Hm & _).
  exists s0. split; [exact H|]. split; [exact Hm | exact Hg].
Defined.


(** ** The manual trigger *)

(** C3's routine can be asked for by anyone through graduate(); from
    deployment on that call never succeeds: before the threshold it reverts
    with "Threshold not reached", and the purchase that reaches the
    threshold graduates in the same transaction, so afterwards it reverts
    with "Already graduated". *)
Theorem manual_graduate_reverts self b0 members pf router pid s0 calls dex :
  constructor self b0 members pf router pid = Ok s0 -> 0 <= b0 ->
  let s := run s0 calls in
  graduate dex s
  = Err (Revert (if graduated s then "Already graduated"
                 else "Threshold not reached")) /\
  step s (CGraduate dex) = s.
Proof.
  intros H Hb s.
  destruct (Inv_run _ _ _ _ _ _ _ calls H Hb) as (Ig & _). fold s in Ig.
  assert (Hg : graduate dex s
               = Err (Revert (if graduated s then "Already graduated"
                              else "Threshold not reached"))).
  { unfold graduate. destruct (graduated s) eqn:Hg; [reflexivity|].
    cbn [negb require bind]. rewrite <- Ig. reflexivity. }
  split; [exact Hg|]. unfold step, exec. cbn [well_formed require bind].
  rewrite Hg. reflexivity.
Qed.

(** On the sample token, before and after its graduation. *)
Lemma manual_graduate_reverts_witness :
  constructor 1000 0 [1; 2; 3] 77 88 5 = Ok sample /\
  graduate (Some 999) (run sample sample_calls)
  = Err (Revert "Already graduated").
Proof.
  refine ((fun H => conj H
             (proj1 (manual_graduate_reverts 1000 0 [1; 2; 3] 77 88 5 sample
                       sample_calls (Some 999) H ltac:(lia)))) _).
  vm_compute. reflexivity.
Defined.

(** ** The books against the trace *)

Lemma graduate_full dex s s' effs :
  graduate dex s = Ok (s', effs) ->
  totalETHRaised s' = totalETHRaised s /\
  liquidityReserve s' = liquidityReserve s /\
  ethBalance s' = ethBalance s - liquidityReserve s /\
  exists newPair,
    effs = [Pay (LiquidityAdded (liquidityReserve s));
            Emit (Graduated newPair (liquidityReserve s) (totalSupply s / 2))].
Proof.
  unfold graduate. intros H. do 2 inv_bind H.
  apply _graduate_Ok in H.
  destruct H as (_ & _ & _ & H1 & H2 & _ & _ & H3 & _ & _ & np & _ & ->).
  eauto 10.
Qed.

Lemma Ledger_step b0 s effs c :
  Ledger b0 s effs -> Ledger b0 (step s c) (effs ++ effects_of s c).
Proof.
  intros (Lb & Lr & Ll & Lp). unfold step, effects_of.
  destruct (exec c s) as [[s' effs']|f] eqn:Hexec;
    [|rewrite app_nil_r; repeat split; assumption].
  cbn [fst snd]. unfold exec in Hexec. inv_bind Hexec. apply require_Ok in E.
  unfold Ledger. rewrite !total_app.
  unfold PLATFORM_FEE_BPS, BPS_DIVISOR in *.
  destruct c as [sender value ps dex|sender amt succ|dex|sender succ|value
                |sender to amt]; cbn [well_formed] in E.
  - apply buy_Ok in Hexec. cbv zeta in Hexec.
    destruct Hexec as (_ & Hv & _ & Hfee & Hr & Hl & _ & _ & _ & Hrest).
    assert (Hpf : platformFeeOf value * 10000 <= 3000 * value).
    { unfold platformFeeOf, PLATFORM_FEE_BPS, BPS_DIVISOR.
      rewrite (Z.mul_comm 3000 value), Z.mul_comm. apply Z.mul_div_le. lia. }
    rewrite Hr, Hl.
    destruct (GRADUATION_THRESHOLD <=? totalETHRaised s + value).
    + destruct Hrest as (_ & Hb' & np & ->). rewrite Hb', Hl. cbn.
      repeat split; lia.
    + destruct Hrest as (_ & Hb' & ->). rewrite Hb'. cbn.
      repeat split; lia.
  - apply sell_Ok in Hexec. cbv zeta in Hexec.
    destruct Hexec as (_ & _ & _ & _ & _ & _ & Hr & Hl & Hb' & _ & _ & _ & ->).
    rewrite Hr, Hl, Hb'. cbn. repeat split; lia.
  - apply graduate_full in Hexec as (Hr & Hl & Hb' & np & ->).
    rewrite Hr, Hl, Hb'. cbn. repeat split; lia.
  - apply claimAgentFees_Ok in Hexec. cbv zeta in Hexec.
    destruct Hexec as (_ & _ & _ & _ & _ & -> & ->). cbn. repeat split; lia.
  - unfold receive in Hexec. inv_ops. cbn. repeat split; lia.
  - inv_bind Hexec. apply transfer_Ok in E0 as [b ->]. inv_ops. cbn.
    repeat split; lia.
Qed.

Lemma Ledger_run self b0 members pf router pid s0 calls :
  constructor self b0 members pf router pid = Ok s0 ->
  Ledger b0 (run s0 calls) (trace s0 calls).
Proof.
  intros H. apply run_trace_ind.
  - apply constructor_Ok in H as [-> _]. unfold Ledger. cbn.
    repeat split; lia.
  - intros s effs c. apply Ledger_step.
Qed.

(** ETH is conserved: after any calls the contract holds what it held at
    deployment plus the msg.value of the purchases and the deposits made
    through receive(), minus everything it sent out (platform fees, sale
    proceeds, agent fees and the liquidity moved at graduation). *)
Theorem eth_conserved self b0 members pf router pid s0 calls :
  constructor self b0 members pf router pid = Ok s0 ->
  ethBalance (run s0 calls)
  = b0 + total purchaseIn (trace s0 calls) + total depositIn (trace s0 calls)
    - total paymentIn (trace s0 calls).
Proof.
  intros H. destruct (Ledger_run _ _ _ _ _ _ _ calls H) as (Lb & _).
  exact Lb.
Qed.

(** Purchases of 20 and 50 wei, a sale, a deposit and a claim. *)
Lemma eth_conserved_witness :
  constructor 1000 0 [1; 2; 3] 77 88 5 = Ok sample /\
  ethBalance (run sample [CBuy 50 20 true None; CBuy 51 50 true None;
                          CSell 50 100000 true; CReceive 9;
                          CClaimAgentFees 1 true])
  = 0 + 70 + 9 - 27.
Proof.
  refine ((fun H => conj H
             (eq_trans
                (eth_conserved 1000 0 [1; 2; 3] 77 88 5 sample
                   [CBuy 50 20 true None; CBuy 51 50 true None;
                    CSell 50 100000 true; CReceive 9;
                    CClaimAgentFees 1 true] H) _)) _).
  - vm_compute. reflexivity.
  - vm_compute. reflexivity.
Defined.

(** The two counters are what the trace says: totalETHRaised is the sum of
    the msg.value of the purchases, liquidityReserve is the sum of the
    liquidity parts announced minus the sale proceeds paid; and the platform
    has been sent at most 30% of totalETHRaised. *)
Theorem counters_match_trace self b0 members pf router pid s0 calls :
  constructor self b0 members pf router pid = Ok s0 ->
  totalETHRaised (run s0 calls) = total purchaseIn (trace s0 calls) /\
  liquidityReserve (run s0 calls)
  = total liquidityIn (trace s0 calls) - total saleIn (trace s0 calls) /\
  total platformIn (trace s0 calls) * 10000
  <= 3000 * totalETHRaised (run s0 calls).
Proof.
  intros H. destruct (Ledger_run _ _ _ _ _ _ _ calls H) as (_ & Lr & Ll & Lp).
  repeat split; assumption.
Qed.

Lemma counters_match_trace_witness :
  constructor 1000 0 [1; 2; 3] 77 88 5 = Ok sample /\
  totalETHRaised (run sample [CBuy 50 20 true None; CSell 50 100000 true])
  = total purchaseIn (trace sample [CBuy 50 20 true None; CSell 50 100000 true]).
Proof.
  refine ((fun H => conj H
             (proj1 (counters_match_trace 1000 0 [1; 2; 3] 77 88 5 sample
                       [CBuy 50 20 true None; CSell 50 100000 true] H))) _).
  vm_compute. reflexivity.
Defined.


(** ** Token balances *)

Lemma tokenSum_fresh (m : gmap Z Z) (k v : Z) :
  m !! k = None -> tokenSum (<[k := v]> m) = v + tokenSum m.
Proof.
  intros Hk. unfold tokenSum.
  apply (map_fold_insert_L (fun _ v acc => v + acc)); [|exact Hk].
  intros. lia.
Qed.

Lemma tokenSum_insert (m : gmap Z Z) (k v : Z) :
  tokenSum (<[k := v]> m) = tokenSum m - default 0 (m !! k) + v.
Proof.
  destruct (m !! k) as [x|] eqn:Hk; cbn.
  - assert (E1 : tokenSum (<[k := v]> m) = v + tokenSum (delete k m)).
    { rewrite <- insert_delete_eq. apply tokenSum_fresh, lookup_delete_eq. }
    assert (E2 : tokenSum m = x + tokenSum (delete k m)).
    { transitivity (tokenSum (<[k := x]> (delete k m))).
      - f_equal. symmetry. apply insert_delete_id, Hk.
      - apply tokenSum_fresh, lookup_delete_eq. }
    lia.
  - rewrite tokenSum_fresh by exact Hk. lia.
Qed.

Lemma tokenSum_nonneg (m : gmap Z Z) :
  (forall a v, m !! a = Some v -> 0 <= v) -> 0 <= tokenSum m.
Proof.
  induction m as [|k x m Hk IH] using map_ind; intros Hall.
  - unfold tokenSum. rewrite map_fold_empty. lia.
  - rewrite tokenSum_fresh by exact Hk.
    assert (0 <= x) by (apply (Hall k); apply lookup_insert_eq).
    assert (0 <= tokenSum m).
    { apply IH. intros a v Ha. apply (Hall a).
      rewrite lookup_insert_ne; [exact Ha|]. intros ->. congruence. }
    lia.
Qed.

(** No holder has more than the supply. *)
Lemma balance_le_supply s a :
  Tokens s -> 0 <= balance s a <= totalSupply s.
Proof.
  intros [Hsum Hpos]. unfold balance.
  destruct (balanceOf s !! a) as [v|] eqn:Ha; cbn.
  - pose proof (Hpos a v Ha).
    rewrite <- Hsum.
    assert (E : tokenSum (balanceOf s) = v + tokenSum (delete a (balanceOf s))).
    { transitivity (tokenSum (<[a := v]> (delete a (balanceOf s)))).
      - f_equal. symmetry. apply insert_delete_id, Ha.
      - apply tokenSum_fresh, lookup_delete_eq. }
    assert (0 <= tokenSum (delete a (balanceOf s))).
    { apply tokenSum_nonneg. intros b w Hb.
      apply lookup_delete_Some in Hb as [_ Hb]. exact (Hpos b w Hb). }
    lia.
  - rewrite <- Hsum. split; [lia|]. apply tokenSum_nonneg. exact Hpos.
Qed.

Lemma Tokens_credit s a amount (supply : Z) :
  Tokens s -> 0 <= balance s a + amount -> supply = totalSupply s + amount ->
  Tokens (set_supply supply (<[a := balance s a + amount]> (balanceOf s)) s).
Proof.
  intros [Hsum Hpos] Hnew ->. split; cbn [balanceOf totalSupply set_supply].
  - rewrite tokenSum_insert. unfold balance, address in *. lia.
  - intros b v. destruct (decide (a = b)) as [->|Hne].
    + rewrite lookup_insert_eq. intros [= <-]. exact Hnew.
    + rewrite lookup_insert_ne by exact Hne. apply Hpos.
Qed.

Lemma Tokens_same s s' :
  balanceOf s' = balanceOf s -> totalSupply s' = totalSupply s ->
  Tokens s -> Tokens s'.
Proof. unfold Tokens. intros -> ->. auto. Qed.

Lemma Tokens_mint s a amount s' :
  Tokens s -> 0 <= amount -> _mint a amount s = Ok s' -> Tokens s'.
Proof.
  intros HT Ha H. apply _mint_Ok in H as [-> _].
  pose proof (balance_le_supply s a HT).
  apply Tokens_credit; [exact HT | lia | reflexivity].
Qed.

Lemma Tokens_burn s a amount s' :
  Tokens s -> _burn a amount s = Ok s' -> Tokens s'.
Proof.
  intros HT H. unfold _burn in H. inv_bind H. inv_ops. bools.
  replace (balance s a - amount) with (balance s a + - amount) by lia.
  apply Tokens_credit; [exact HT | lia | lia].
Qed.

Lemma Tokens_transfer s a b amount s' :
  Tokens s -> 0 <= amount -> transfer a b amount s = Ok s' -> Tokens s'.
Proof.
  intros HT Ha H. unfold transfer in H. repeat inv_bind H. inv_ops. bools.
  cbv zeta.
  set (s1 := set_supply (totalSupply s - amount)
               (<[a := balance s a + - amount]> (balanceOf s)) s).
  assert (HT1 : Tokens s1)
    by (apply Tokens_credit; [exact HT | lia | lia]).
  pose proof (balance_le_supply s1 b HT1) as Hb1.
  pose proof (Tokens_credit s1 b amount (totalSupply s)
                HT1 ltac:(lia) ltac:(cbn; lia)) as HT2.
  revert HT2. unfold s1, balance. cbn [balanceOf totalSupply set_supply].
  replace (balance s a + - amount) with (balance s a - amount) by lia.
  apply Tokens_same; reflexivity.
Qed.


Lemma Tokens_graduate dex s s' effs :
  Tokens s -> _graduate dex s = Ok (s', effs) -> Tokens s'.
Proof.
  intros HT H. pose proof (balance_le_supply s 0 HT) as Hs.
  unfold _graduate in H. do 2 inv_bind H.
  destruct dex as [newPair|]; [|discriminate].
  cbv zeta in H. apply bind_Ok in H as (half & Eh & H).
  apply div_Ok in Eh as [-> _].
  apply bind_Ok in H as (s1 & Em & H).
  apply bind_Ok in H as (u & _ & H).
  apply bind_Ok in H as (s2 & Et & H). inv_ops.
  cbn [totalSupply set_uniswapV2Pair set_graduated] in *.
  assert (Hhalf : 0 <= totalSupply s / 2) by (apply Z.div_pos; lia).
  eapply Tokens_mint in Em; [|eapply Tokens_same; [| |exact HT]; reflexivity
                              |exact Hhalf].
  eapply Tokens_transfer in Et; [|exact Em|exact Hhalf].
  revert Et. apply Tokens_same; reflexivity.
Qed.

Lemma Tokens_step s c : Tokens s -> Tokens (step s c).
Proof.
  intros HT. unfold step.
  destruct (exec c s) as [[s' effs]|f] eqn:Hexec; [|exact HT]. cbn [fst].
  unfold exec in Hexec. inv_bind Hexec. apply require_Ok in E.
  destruct c as [sender value ps dex|sender amt succ|dex|sender succ|value
                |sender to amt]; cbn [well_formed] in E.
  - unfold buy in Hexec. cbv zeta in Hexec.
    do 2 inv_bind Hexec.
    apply bind_Ok in Hexec as (tokens & _ & Hexec).
    apply bind_Ok in Hexec as (u & Ht & Hexec).
    apply require_Ok, Z.ltb_lt in Ht.
    do 7 inv_bind Hexec.
    do 2 inv_bind Hexec.
    apply bind_Ok in Hexec as (s1 & Em & Hexec).
    apply bind_Ok in Hexec as (p & _ & Hexec).
    eapply Tokens_mint in Em;
      [|eapply Tokens_same; [| |exact HT]; reflexivity | lia].
    match type of Hexec with
    | (if ?c then _ else _) = _ => destruct c
    end.
    + apply bind_Ok in Hexec as ([s2 e2] & Eg & Hexec). inv_ops.
      cbn [fst]. eapply Tokens_graduate; eassumption.
    + inv_ops. exact Em.
  - unfold sell in Hexec. do 6 inv_bind Hexec.
    apply bind_Ok in Hexec as (s1 & Eb & Hexec).
    eapply Tokens_burn in Eb; [|exact HT].
    repeat inv_bind Hexec. inv_ops.
    revert Eb. apply Tokens_same; reflexivity.
  - unfold graduate in Hexec. do 2 inv_bind Hexec.
    eapply Tokens_graduate; eassumption.
  - apply claimAgentFees_Ok in Hexec. cbv zeta in Hexec.
    destruct Hexec as (_ & _ & _ & _ & _ & -> & _).
    revert HT. apply Tokens_same; reflexivity.
  - unfold receive in Hexec. inv_ops.
    revert HT. apply Tokens_same; reflexivity.
  - inv_bind Hexec. inv_ops. unfold is_uint256 in E. bools.
    eapply Tokens_transfer; [exact HT | | eassumption]. lia.
Qed.

Lemma Tokens_run self b0 members pf router pid s0 calls :
  constructor self b0 members pf router pid = Ok s0 -> Tokens (run s0 calls).
Proof.
  intros H. induction calls as [|c calls IH] using rev_ind.
  - apply constructor_Ok in H as [-> _]. split.
    + reflexivity.
    + intros a v Hv. cbn in Hv. rewrite lookup_empty in Hv. discriminate.
  - rewrite run_snoc. apply Tokens_step, IH.
Qed.

(** Tokens are conserved: after any calls every balance is non-negative
    and the balances add up to totalSupply, so no holder has more than the
    supply. *)
Theorem tokens_conserved self b0 members pf router pid s0 calls :
  constructor self b0 members pf router pid = Ok s0 ->
  let s := run s0 calls in
  tokenSum (balanceOf s) = totalSupply s /\
  forall a, 0 <= balance s a <= totalSupply s.
Proof.
  intros H s. pose proof (Tokens_run _ _ _ _ _ _ _ calls H) as HT.
  split; [exact (proj1 HT)|]. intros a. apply balance_le_supply, HT.
Qed.

(** After the graduating purchase on the sample token: buyer 1000000e18,
    pair 500000e18. *)
Lemma tokens_conserved_witness :
  constructor 1000 0 [1; 2; 3] 77 88 5 = Ok sample /\
  tokenSum (balanceOf (run sample sample_calls))
  = totalSupply (run sample sample_calls).
Proof.
  refine ((fun H => conj H
             (proj1 (tokens_conserved 1000 0 [1; 2; 3] 77 88 5 sample
                       sample_calls H))) _).
  vm_compute. reflexivity.
Defined.


(** ** Graduation depends on Uniswap *)

Lemma buy_without_dex sender value ps s s' effs :
  buy sender value ps None s = Ok (s', effs) ->
  totalETHRaised s + value < GRADUATION_THRESHOLD.
Proof.
  intros H. unfold buy in H. cbv zeta in H.
  apply bind_Ok in H as (u & Hg & H). apply require_Ok in Hg.
  cbn [graduated set_ethBalance] in Hg.
  do 12 inv_bind H.
  apply bind_Ok in H as (s1 & Em & H). apply _mint_Ok in Em as [-> _].
  inv_bind H. inv_ops.
  cbn [totalETHRaised graduated set_supply set_totalETHRaised
       set_liquidityReserve set_ethBalance] in H.
  rewrite Hg in H.
  destruct (GRADUATION_THRESHOLD <=? totalETHRaised s + value) eqn:Hc;
    [|apply Z.leb_gt in Hc; exact Hc].
  cbn [andb] in H. apply bind_Ok in H as (r & Eg & _).
  unfold _graduate in Eg. do 2 inv_bind Eg. discriminate.
Qed.

(** While the Uniswap calls revert the token cannot graduate: every
    purchase that would take totalETHRaised to the threshold is rolled back,
    so after any calls totalETHRaised is still below the threshold and the
    curve is still open. *)
Theorem no_graduation_without_dex self b0 members pf router pid s0 calls :
  constructor self b0 members pf router pid = Ok s0 ->
  Forall (fun c => dex_fails c = true) calls ->
  graduated (run s0 calls) = false /\
  totalETHRaised (run s0 calls) < GRADUATION_THRESHOLD /\
  graduations (trace s0 calls) = 0%nat.
Proof.
  intros H. induction calls as [|c calls IH] using rev_ind; intros Hall.
  - apply constructor_Ok in H as [-> _]. cbn. repeat split; reflexivity.
  - apply Forall_app in Hall as [Hcalls Hc]. inversion Hc as [|? ? Hd _]; subst.
    destruct (IH Hcalls) as (Ig & Ir & In_). clear IH.
    rewrite run_snoc, trace_snoc, graduations_app, In_.
    unfold step, effects_of.
    destruct (exec c (run s0 calls)) as [[s' effs]|f] eqn:Hexec;
      [|repeat split; assumption].
    cbn [fst snd]. unfold exec in Hexec. inv_bind Hexec.
    destruct c as [sender value ps [np|]|sender amt succ|[np|]|sender succ|value
                  |sender to amt]; try discriminate.
    + pose proof (buy_without_dex _ _ _ _ _ _ Hexec) as Hlow.
      apply buy_Ok in Hexec. cbv zeta in Hexec.
      destruct Hexec as (_ & _ & _ & _ & Hr & _ & Hg' & _ & _ & Hrest).
      apply Z.leb_gt in Hlow as Hc'. rewrite Hc' in Hrest, Hg'.
      destruct Hrest as (_ & _ & ->). rewrite Hr, Hg'.
      repeat split; try reflexivity; try assumption; lia.
    + apply sell_Ok in Hexec. cbv zeta in Hexec.
      destruct Hexec as (_ & _ & _ & _ & _ & _ & -> & _ & _ & -> & _ & _ & ->).
      repeat split; try reflexivity; assumption.
    + unfold graduate in Hexec. do 2 inv_bind Hexec.
      unfold _graduate in Hexec. do 2 inv_bind Hexec. discriminate.
    + apply claimAgentFees_Ok in Hexec. cbv zeta in Hexec.
      destruct Hexec as (_ & _ & _ & _ & _ & -> & ->).
      repeat split; try reflexivity; assumption.
    + unfold receive in Hexec. inv_ops.
      repeat split; try reflexivity; assumption.
    + inv_bind Hexec. apply transfer_Ok in E0 as [b ->]. inv_ops.
      repeat split; try reflexivity; assumption.
Qed.

(** A purchase of 9 ether, then one of 2 ether whose pair creation fails. *)
Lemma no_graduation_without_dex_witness :
  constructor 1000 0 [1; 2; 3] 77 88 5 = Ok sample /\
  totalETHRaised (run sample [CBuy 50 (9 * ether) true None;
                              CBuy 51 (2 * ether) true None])
  < GRADUATION_THRESHOLD.
Proof.
  refine ((fun H => conj H
             (proj1 (proj2
                (no_graduation_without_dex 1000 0 [1; 2; 3] 77 88 5 sample
                   [CBuy 50 (9 * ether) true None;
                    CBuy 51 (2 * ether) true None] H _)))) _).
  - repeat constructor.
  - vm_compute. reflexivity.
Defined.


(** ** Pricing *)

Lemma priceAt_mono a b : a <= b -> priceAt a <= priceAt b.
Proof.
  intros H. unfold priceAt.
  assert (a / ether <= b / ether) by (apply Z.div_le_mono; [reflexivity | exact H]).
  lia.
Qed.

(** calculatePurchaseReturn gives at most 100000 tokens per wei, more
    tokens for more ETH, and fewer tokens for the same ETH once the supply
    is larger. *)
Theorem purchase_return_bounds s ethAmount tokens :
  0 <= totalSupply s -> 0 <= ethAmount ->
  calculatePurchaseReturn s ethAmount = Ok tokens ->
  0 <= tokens <= ethAmount * 100000 /\
  (forall ethAmount' tokens',
      ethAmount <= ethAmount' ->
      calculatePurchaseReturn s ethAmount' = Ok tokens' -> tokens <= tokens') /\
  (forall s2 tokens2,
      totalSupply s <= totalSupply s2 ->
      calculatePurchaseReturn s2 ethAmount = Ok tokens2 -> tokens2 <= tokens).
Proof.
  intros Hs He H.
  pose proof (priceAt_lower _ Hs) as Hp.
  assert (Hi : 0 < INITIAL_PRICE) by reflexivity.
  assert (HE : 0 < ether) by reflexivity.
  assert (Ht : tokens = ethAmount * ether / priceAt (totalSupply s)).
  { destruct (Z.eq_dec ethAmount 0) as [->|Hne].
    - unfold calculatePurchaseReturn in H. cbn in H. inv_ops. reflexivity.
    - apply calculatePurchaseReturn_Ok; assumption. }
  split; [|split].
  - subst tokens. split; [apply Z.div_pos; nia | apply tokens_le; lia].
  - intros e' t' Hle H'.
    assert (e' <> 0 \/ e' = 0) as [Hne| ->] by lia.
    + apply calculatePurchaseReturn_Ok in H'; [|exact Hne]. subst.
      apply Z.div_le_mono; [lia | nia].
    + assert (ethAmount = 0) by lia. subst ethAmount.
      unfold calculatePurchaseReturn in H'. cbn in H'. inv_ops. subst.
      rewrite Z.mul_0_l, Zdiv_0_l. lia.
  - intros s2 t2 Hsup H2.
    assert (Ht2 : t2 = ethAmount * ether / priceAt (totalSupply s2)).
    { destruct (Z.eq_dec ethAmount 0) as [->|Hne].
      - unfold calculatePurchaseReturn in H2. cbn in H2. inv_ops. reflexivity.
      - apply calculatePurchaseReturn_Ok; assumption. }
    subst. pose proof (priceAt_mono _ _ Hsup).
    apply Z.div_le_compat_l; [nia | lia].
Qed.

(** 20 wei on the fresh sample token buy 2000000 token units. *)
Lemma purchase_return_bounds_witness :
  calculatePurchaseReturn sample 20 = Ok 2000000 /\
  0 <= 2000000 <= 20 * 100000.
Proof.
  refine ((fun H => conj H
             (proj1 (purchase_return_bounds sample 20 2000000
                       ltac:(vm_compute; discriminate)
                       ltac:(lia) H))) _).
  vm_compute. reflexivity.
Defined.

(** A successful purchase never lowers the price getCurrentPrice reports
    and a successful sale never raises it. *)
Theorem price_follows_supply self b0 members pf router pid s0 calls c s' effs :
  constructor self b0 members pf router pid = Ok s0 -> 0 <= b0 ->
  let s := run s0 calls in
  exec c s = Ok (s', effs) ->
  forall p p', getCurrentPrice s = Ok p -> getCurrentPrice s' = Ok p' ->
  match c with
  | CBuy _ _ _ _ => p <= p'
  | CSell _ _ _ => p' <= p
  | CGraduate _ => False
  | _ => p' = p
  end.
Proof.
  intros H Hb s Hexec p p' Hp Hp'.
  destruct (Inv_run _ _ _ _ _ _ _ calls H Hb) as (Ig & _ & _ & Hs & _).
  fold s in Ig, Hs.
  apply getCurrentPrice_priceAt in Hp, Hp'. subst p p'.
  unfold exec in Hexec. inv_bind Hexec.
  destruct c as [sender value ps dex|sender amt succ|dex|sender succ|value
                |sender to amt].
  - apply buy_Ok in Hexec. cbv zeta in Hexec.
    destruct Hexec as (_ & _ & Ht & _ & _ & _ & _ & _ & _ & Hrest).
    apply priceAt_mono.
    destruct (GRADUATION_THRESHOLD <=? totalETHRaised s + value).
    + destruct Hrest as (-> & _).
      assert (0 <= (totalSupply s + value * ether / priceAt (totalSupply s)) / 2)
        by (apply Z.div_pos; lia).
      lia.
    + destruct Hrest as (-> & _). lia.
  - apply sell_Ok in Hexec. cbv zeta in Hexec.
    destruct Hexec as (_ & Ht & _ & _ & _ & -> & _).
    apply priceAt_mono. lia.
  - apply graduate_Ok in Hexec as (Hg & Ht & _).
    rewrite Hg in Ig. symmetry in Ig. bools. lia.
  - apply claimAgentFees_Ok in Hexec. cbv zeta in Hexec.
    destruct Hexec as (_ & _ & _ & _ & _ & -> & _). reflexivity.
  - unfold receive in Hexec. inv_ops. reflexivity.
  - inv_bind Hexec. apply transfer_Ok in E0 as [b ->]. inv_ops. reflexivity.
Qed.

(** The 10 ether purchase on the sample token moves the price from
    10^13 to 10^13 + 1500000. *)
Lemma price_follows_supply_witness :
  constructor 1000 0 [1; 2; 3] 77 88 5 = Ok sample /\
  10 ^ 13 <= 10 ^ 13 + 1500000.
Proof.
  refine ((fun H => conj H
             (price_follows_supply 1000 0 [1; 2; 3] 77 88 5 sample []
                (CBuy 50 (10 * ether) true (Some 999)) _ _ H ltac:(lia)
                _ (10 ^ 13) (10 ^ 13 + 1500000) _ _)) _).
  - vm_compute. reflexivity.
  - vm_compute. reflexivity.
  - vm_compute. reflexivity.
  - vm_compute. reflexivity.
Defined.


Lemma price_fits s :
  0 <= liquidityReserve s <= totalETHRaised s -> 0 <= totalSupply s ->
  SupplyBound s -> priceAt (totalSupply s) <= MAX_UINT256.
Proof.
  intros Hr Hs HB.
  assert (totalSupply s = 0 \/ 0 < totalSupply s) as [H0|Hpos] by lia.
  - rewrite H0. vm_compute. discriminate.
  - exact (proj1 (sale_fits s (totalSupply s) Hr Hs HB ltac:(lia))).
Qed.

(** getMarketStats returns, in every state reached by realistic calls, the
    price of the current supply, the three counters, the flag, and
    floor(totalETHRaised * 100 / threshold) as progress; the progress is
    below 100 exactly while the token has not graduated. *)
Theorem market_stats self b0 members pf router pid s0 calls :
  constructor self b0 members pf router pid = Ok s0 -> 0 <= b0 ->
  Forall (fun c => realistic c = true) calls ->
  let s := run s0 calls in
  let progress := totalETHRaised s * 100 / GRADUATION_THRESHOLD in
  getMarketStats s
  = Ok (priceAt (totalSupply s), totalSupply s, totalETHRaised s,
        liquidityReserve s, graduated s, progress) /\
  (progress < 100 <-> graduated s = false) /\
  0 <= progress.
Proof.
  intros H Hb Hreal s progress.
  destruct (Inv_run _ _ _ _ _ _ _ calls H Hb) as (Ig & Hr0 & Hr & Hs & _).
  pose proof (SupplyBound_run _ _ _ _ _ _ _ calls H Hb Hreal) as HB.
  fold s in Ig, Hr0, Hr, Hs, HB.
  pose proof (price_fits s (conj Hr0 Hr) Hs HB) as Hp.
  assert (HT : 0 < GRADUATION_THRESHOLD) by reflexivity.
  assert (Hfit : (GRADUATION_THRESHOLD + 2 ^ 128) * 100 <= MAX_UINT256)
    by (vm_compute; discriminate).
  assert (Hraised : totalETHRaised s < GRADUATION_THRESHOLD + 2 ^ 128).
  { destruct HB as [_ HB]. destruct (graduated s); lia. }
  split; [|split].
  - unfold getMarketStats. rewrite (getCurrentPrice_ok s Hs Hp). cbn [bind].
    rewrite mul_ok by lia. cbn [bind].
    rewrite div_ok by discriminate. reflexivity.
  - rewrite Ig. unfold progress. rewrite Z.leb_gt. split; intros Hx.
    + destruct (Z.lt_ge_cases (totalETHRaised s) GRADUATION_THRESHOLD)
        as [Hlt|Hge]; [exact Hlt|].
      assert (100 <= totalETHRaised s * 100 / GRADUATION_THRESHOLD)
        by (apply Z.div_le_lower_bound; lia).
      lia.
    + apply Z.div_lt_upper_bound; lia.
  - unfold progress. apply Z.div_pos; lia.
Qed.

(** After a purchase of 5 ether the progress is 50. *)
Lemma market_stats_witness :
  constructor 1000 0 [1; 2; 3] 77 88 5 = Ok sample /\
  getMarketStats (run sample [CBuy 50 (5 * ether) true None])
  = Ok (10 ^ 13 + 500000, 500000 * ether, 5 * ether, 3 * ether, false, 50).
Proof.
  refine ((fun H => conj H
             (eq_trans
                (proj1 (market_stats 1000 0 [1; 2; 3] 77 88 5 sample
                          [CBuy 50 (5 * ether) true None] H ltac:(lia) _))
                _)) _).
  - repeat constructor.
  - vm_compute. reflexivity.
  - vm_compute. reflexivity.
Defined.

(** ** Selling *)








(** ** Buying and selling back *)







(** ** Claiming agent fees *)

Lemma claim_ok s sender :
  member s sender = true ->
  0 <= liquidityReserve s <= ethBalance s ->
  let n := Z.of_nat (length (quorumMembers s)) in
  let unclaimed := ethBalance s - liquidityReserve s in
  0 < n <= unclaimed ->
  0 < unclaimed / n <= unclaimed /\
  claimAgentFees sender true s
  = Ok (set_ethBalance (ethBalance s - unclaimed / n) s,
        [Pay (AgentFeePaid sender (unclaimed / n))]).
Proof.
  intros Hm Hr n unclaimed Hn.
  assert (Hfee : 1 <= unclaimed / n) by (apply Z.div_le_lower_bound; lia).
  assert (Hfee' : unclaimed / n <= unclaimed)
    by (apply Z.div_le_upper_bound; nia).
  split; [lia|].
  unfold claimAgentFees. rewrite Hm. cbn [require bind]. unfold sub.
  assert (H1 : (liquidityReserve s <=? ethBalance s) = true)
    by (apply Z.leb_le; lia).
  rewrite H1. cbn [bind]. fold unclaimed. fold n.
  assert (H2 : (0 <? unclaimed) = true) by (apply Z.ltb_lt; lia).
  rewrite H2. cbn [require bind]. rewrite div_ok by lia. cbn [bind].
  assert (H3 : (0 <? unclaimed / n) = true) by (apply Z.ltb_lt; lia).
  assert (H4 : (unclaimed / n <=? ethBalance s) = true)
    by (apply Z.leb_le; unfold unclaimed in *; lia).
  rewrite H3, H4. reflexivity.
Qed.

(** Claims are not recorded per member: a member who has just been paid
    floor(unclaimed / n) can claim again at once and is paid
    floor(remaining / n) of what remains, and so receives more than one
    equal share. *)
Theorem repeated_claim s sender :
  member s sender = true ->
  0 <= liquidityReserve s <= ethBalance s ->
  let n := Z.of_nat (length (quorumMembers s)) in
  let unclaimed := ethBalance s - liquidityReserve s in
  let first := unclaimed / n in
  let second := (unclaimed - first) / n in
  0 < n -> n <= unclaimed - first ->
  exists s1 s2,
    claimAgentFees sender true s = Ok (s1, [Pay (AgentFeePaid sender first)]) /\
    claimAgentFees sender true s1 = Ok (s2, [Pay (AgentFeePaid sender second)]) /\
    0 < second /\
    ethBalance s2 = ethBalance s - first - second /\
    liquidityReserve s2 = liquidityReserve s.
Proof.
  intros Hm Hr n unclaimed first second Hn Hrest.
  assert (Hf0 : 0 <= first) by (apply Z.div_pos; unfold unclaimed; lia).
  destruct (claim_ok s sender Hm Hr ltac:(fold n; fold unclaimed; lia))
    as [Hfirst H1].
  fold n in Hfirst, H1. fold unclaimed in Hfirst, H1. fold first in Hfirst, H1.
  set (s1 := set_ethBalance (ethBalance s - first) s) in *.
  assert (Hm1 : member s1 sender = true) by exact Hm.
  assert (Hr1 : 0 <= liquidityReserve s1 <= ethBalance s1)
    by (unfold s1; cbn; unfold unclaimed in *; lia).
  destruct (claim_ok s1 sender Hm1 Hr1) as [Hsecond H2].
  { unfold s1. cbn. fold n. unfold unclaimed in *. lia. }
  unfold s1 in Hsecond, H2. cbn in Hsecond, H2. fold n in Hsecond, H2.
  replace (ethBalance s - first - liquidityReserve s)
    with (unclaimed - first) in Hsecond, H2 by (unfold unclaimed; lia).
  fold second in Hsecond, H2.
  eexists _, _. split; [exact H1|]. split; [exact H2|].
  cbn. repeat split; lia.
Qed.

(** After a purchase of 100 wei (10 wei of agent fees) member 1 claims 3 wei
    and then 2 wei. *)
Lemma repeated_claim_witness :
  exists s1 s2,
    claimAgentFees 1 true (run sample [CBuy 50 100 true None])
    = Ok (s1, [Pay (AgentFeePaid 1 3)]) /\
    claimAgentFees 1 true s1 = Ok (s2, [Pay (AgentFeePaid 1 2)]).
Proof.
  refine (match repeated_claim (run sample [CBuy 50 100 true None]) 1 _ _ _ _
          with
          | ex_intro _ s1 (ex_intro _ s2 (conj A (conj B _))) =>
              ex_intro _ s1 (ex_intro _ s2 (conj A B))
          end).
  - vm_compute. reflexivity.
  - vm_compute. split; discriminate.
  - vm_compute. reflexivity.
  - vm_compute. discriminate.
Defined.


Lemma reserve_left_step s effs c :
  (graduated s = true -> In (Pay (LiquidityAdded (liquidityReserve s))) effs) ->
  graduated (step s c) = true ->
  In (Pay (LiquidityAdded (liquidityReserve (step s c))))
     (effs ++ effects_of s c).
Proof.
  intros IH. unfold step, effects_of.
  destruct (exec c s) as [[s' effs']|f] eqn:Hexec;
    [|rewrite app_nil_r; exact IH].
  cbn [fst snd]. intros Hg'. apply in_or_app.
  unfold exec in Hexec. inv_bind Hexec.
  destruct c as [sender value ps dex|sender amt succ|dex|sender succ|value
                |sender to amt].
  - apply buy_Ok in Hexec. cbv zeta in Hexec.
    destruct Hexec as (_ & _ & _ & _ & _ & _ & Hgc & _ & _ & Hrest).
    rewrite Hg' in Hgc. rewrite <- Hgc in Hrest.
    destruct Hrest as (_ & _ & np & ->). right.
    apply in_or_app. right. left. reflexivity.
  - apply sell_Ok in Hexec. cbv zeta in Hexec.
    destruct Hexec as (_ & _ & _ & _ & _ & _ & _ & _ & _ & Hgf & _).
    congruence.
  - apply graduate_full in Hexec as (_ & -> & _ & np & ->).
    right. left. reflexivity.
  - apply claimAgentFees_Ok in Hexec. cbv zeta in Hexec.
    destruct Hexec as (_ & _ & _ & _ & _ & -> & _). left. exact (IH Hg').
  - unfold receive in Hexec. inv_ops. left. exact (IH Hg').
  - inv_bind Hexec. apply transfer_Ok in E0 as [b ->]. inv_ops.
    left. exact (IH Hg').
Qed.

(** After graduation the whole reserve has been sent to Uniswap, yet
    liquidityReserve still shows it; the contract then holds only what it
    held at deployment plus agent fees and deposits not yet claimed, and
    claimAgentFees subtracts the stale reserve from that: while the balance
    is below liquidityReserve every claim fails, a member's with an
    arithmetic panic. *)
Theorem fees_locked_after_graduation self b0 members pf router pid s0 calls :
  constructor self b0 members pf router pid = Ok s0 -> 0 <= b0 ->
  let s := run s0 calls in
  graduated s = true ->
  In (Pay (LiquidityAdded (liquidityReserve s))) (trace s0 calls) /\
  ethBalance s
  = b0 + agentFeesAccrued (trace s0 calls) + deposited (trace s0 calls)
    - agentFeesClaimed (trace s0 calls) /\
  (ethBalance s < liquidityReserve s ->
   forall sender success,
     claimAgentFees sender success s
     = if member s sender then Err (Panic 17)
       else Err (Revert "Not a quorum member")).
Proof.
  intros H Hb s Hg.
  destruct (Inv_run _ _ _ _ _ _ _ calls H Hb)
    as (_ & _ & _ & _ & _ & _ & _ & Hled & _).
  fold s in Hled. rewrite Hg in Hled.
  split; [|split; [exact Hled|]].
  - revert Hg. unfold s.
    apply (run_trace_ind
             (fun s effs => graduated s = true ->
                            In (Pay (LiquidityAdded (liquidityReserve s))) effs)).
    + apply constructor_Ok in H as [-> _]. discriminate.
    + intros s1 effs c. apply reserve_left_step.
  - intros Hlow sender success. unfold claimAgentFees.
    destruct (member s sender); [|reflexivity].
    cbn [require bind]. unfold sub.
    assert (Hf : (liquidityReserve s <=? ethBalance s) = false)
      by (apply Z.leb_gt; lia).
    rewrite Hf. reflexivity.
Qed.

(** The graduated sample token holds 1 ether of agent fees against a
    recorded reserve of 6 ether. *)
Lemma fees_locked_after_graduation_witness :
  constructor 1000 0 [1; 2; 3] 77 88 5 = Ok sample /\
  graduated (run sample sample_calls) = true /\
  ethBalance (run sample sample_calls)
  < liquidityReserve (run sample sample_calls) /\
  claimAgentFees 1 true (run sample sample_calls) = Err (Panic 17).
Proof.
  refine ((fun H G L =>
             conj H (conj G (conj L
               (proj2 (proj2
                  (fees_locked_after_graduation 1000 0 [1; 2; 3] 77 88 5 sample
                     sample_calls H ltac:(lia) G)) L 1 true)))) _ _ _).
  - vm_compute. reflexivity.
  - vm_compute. reflexivity.
  - vm_compute. reflexivity.
Defined.

End CurveExtras.

(* ===================================================================== *)
(** * Further facts about the collaboration service                       *)
(* ===================================================================== *)

Module ServiceExtras.
Import CollaborationService CollaborationFacts.

(** ** Rows and keys *)

Lemma profile_known (st : Store) (a : ID) :
  is_Some (profile st a) <-> known st (Some a) = true.
Proof.
  unfold profile, known. split.
  - intros [p Hp]. exact (find_existsb _ _ _ Hp).
  - intros He. apply existsb_exists in He as (p & Hin & Hp).
    destruct (List.find (fun p => product_id p =? a) (products st)) eqn:Hf;
      [eexists; reflexivity|].
    rewrite (find_none _ _ Hf p Hin) in Hp. discriminate.
Qed.

Lemma profile_id (st : Store) (a : ID) (p : Product) :
  profile st a = Some p -> product_id p = a.
Proof.
  unfold profile. intros Hf. apply find_some in Hf as [_ Hp].
  apply Z.eqb_eq in Hp. exact Hp.
Qed.

Lemma In_lookup {A} (l : list A) (a : A) :
  In a l <-> exists i : nat, l !! i = Some a.
Proof. rewrite <- list_elem_of_In. apply list_elem_of_lookup. Qed.




Lemma update_row_steps (R : Collaboration -> Collaboration -> Prop) (cid : ID)
    (g : Collaboration -> Collaboration) (rows : list Collaboration) :
  (forall r, R r r) ->
  (forall r, In r rows -> id r = cid -> R r (g r)) ->
  Forall2 R rows (update_row cid g rows).
Proof.
  intros Hrefl Hg. induction rows as [|r rows IH]; [constructor|].
  cbn [update_row map]. constructor.
  - destruct (Z.eqb_spec (id r) cid) as [Heq|]; [|apply Hrefl].
    apply Hg; [left; reflexivity | exact Heq].
  - apply IH. intros x Hx. apply Hg. right. exact Hx.
Qed.

Lemma steps_refl (rows : list Collaboration) : Forall2 row_step rows rows.
Proof. induction rows; constructor; [apply row_kept | assumption]. Qed.

Lemma find_token (t : string) (rows : list Collaboration) (c : Collaboration) :
  List.find (fun c => opt_string_eqb (tokenAddress c) t) rows = Some c ->
  In c rows /\ tokenAddress c = Some t.
Proof.
  intros Hf. apply find_some in Hf as [Hin Ht]. split; [exact Hin|].
  destruct (tokenAddress c) as [x|]; [|discriminate].
  cbn in Ht. apply String.eqb_eq in Ht. congruence.
Qed.

Lemma apply_create_row (st : Store) (q : string) (ags : list ID) :
  createCollaboration q ags st
  = (Returned (created st q ags),
     mkStore (products st) (collaborations st ++ [created st q ags]) (votes st)).
Proof.
  unfold createCollaboration, bind. rewrite mapM_findOne.
  unfold created, profile. rewrite map_map, length_map. reflexivity.
Qed.

(** Every call rewrites at most one row, by one of the five updates, and
    appends at most the row of a new collaboration. *)
Lemma apply_rows (st : Store) (op : Op) :
  keys_ok st ->
  exists rows' new,
    collaborations (apply st op) = rows' ++ new /\
    Forall2 row_step (collaborations st) rows' /\
    new = match op with
          | CreateCollaboration q ags => [created st q ags]
          | _ => []
          end.
Proof.
  intros Hk.
  destruct op as [q ags|now cid aid tx|q a n s|t m|now t]; unfold apply.
  - rewrite apply_create_row. cbn [snd collaborations].
    eexists _, _. split; [reflexivity|]. split; [apply steps_refl | reflexivity].
  - rewrite (recordVote_eq st now cid aid tx Hk). cbv zeta.
    destruct (lookup st cid) as [c|]; cbn [snd collaborations];
      eexists _, []; rewrite app_nil_r; (split; [reflexivity|]);
      (split; [|reflexivity]).
    + apply update_row_steps; [apply row_kept | intros; apply row_voted].
    + apply steps_refl.
  - rewrite (updateTokenLaunch_eq st q a n s Hk).
    destruct (List.find _ (collaborations st)) as [c|]; cbn [snd collaborations];
      eexists _, []; rewrite app_nil_r; (split; [reflexivity|]);
      (split; [|reflexivity]).
    + apply update_row_steps; [apply row_kept | intros; apply row_launched].
    + apply steps_refl.
  - rewrite (updateMarketCap_eq st t m Hk).
    destruct (List.find _ (collaborations st)) as [c|]; cbn [snd collaborations];
      eexists _, []; rewrite app_nil_r; (split; [reflexivity|]);
      (split; [|reflexivity]).
    + apply update_row_steps; [apply row_kept | intros; apply row_priced].
    + apply steps_refl.
  - rewrite (markGraduated_eq st now t Hk).
    destruct (List.find _ (collaborations st)) as [c|] eqn:Hf;
      [|eexists _, []; rewrite app_nil_r; split; [reflexivity|];
        split; [apply steps_refl | reflexivity]].
    apply find_token in Hf as [Hin Ht].
    destruct (rate_loop_tables (agents c) st) as [Hc _].
    destruct (rate_loop (agents c) st) as [[u|e] st1]; cbn [snd] in *;
      eexists _, []; rewrite app_nil_r; (split; [reflexivity|]);
      (split; [|reflexivity]).
    + cbn [collaborations]. apply update_row_steps; [apply row_kept|].
      intros r Hr Hid. apply row_graduated.
      rewrite (keys_unique st r c Hk Hr Hin Hid), Ht. eexists; reflexivity.
    + rewrite Hc. apply steps_refl.
Qed.

(** ** What the updates keep *)

Ltac conjs := repeat match goal with |- _ /\ _ => split end.

Ltac row_fields :=
  cbn [voted with_votes with_token with_marketCap with_graduation created
       id quorumId agents status requiredVotes votesReceived tokenAddress
       tokenName tokenSymbol graduated graduatedAt marketCap] in *.

Lemma row_step_ok (r r' : Collaboration) :
  row_step r r' -> row_ok r -> row_ok r'.
Proof.
  intros Hs Hok. destruct Hs as [r|r|a n s r|m r|now r Ht]; [exact Hok|..];
    destruct Hok as (H1 & H2 & H3 & H4 & H5 & H6 & H7 & H8 & H9 & H10 & H11);
    unfold row_ok; row_fields.
  - destruct (Z.eqb_spec (votesReceived r + 1) (requiredVotes r)) as [Heq|Hne];
      conjs; try assumption; try discriminate; try lia;
      try (intros Hst; specialize (H5 Hst); lia);
      try (intros Hst; destruct (H4 Hst) as (Ha & Hb & Hc);
           split; [exact Ha|]; split; [exact Hb|]; lia).
  - conjs; try assumption; try discriminate; try tauto;
      try (intros; eexists; reflexivity);
      split; intros; eexists; reflexivity.
  - conjs; assumption.
  - conjs; try assumption; try discriminate; try tauto;
      try (intros; first [reflexivity | eexists; reflexivity]);
      split; intros; first [reflexivity | eexists; reflexivity].
Qed.

Lemma row_step_extends (r r' : Collaboration) : row_step r r' -> extends r r'.
Proof.
  intros Hs. destruct Hs as [r|r|a n s r|m r|now r Ht]; unfold extends;
    row_fields; conjs; try reflexivity; try tauto; try lia; try discriminate;
    try (intros; eexists; reflexivity).
  intros Hst. destruct (_ =? _); [discriminate | exact Hst].
Qed.



Lemma created_ok (st : Store) (q : string) (ags : list ID) :
  row_ok (created st q ags).
Proof.
  unfold row_ok. row_fields. rewrite length_map.
  conjs; try discriminate; try lia; try reflexivity;
    try (intros [x Hx]; discriminate);
    try (split; [discriminate | intros [x Hx]; discriminate]);
    try (split; intros [x Hx]; discriminate).
  intros _. conjs; try reflexivity. lia.
Qed.

(** ** The product table keeps its keys *)

Lemma product_update_ids (pid : ID) (cnt : Z) (rate : Q) (st : Store) :
  map product_id (products (snd (product_update pid cnt rate st)))
  = map product_id (products st).
Proof.
  unfold product_update.
  destruct (existsb _ (products st)); [|reflexivity]. cbn [snd products].
  rewrite map_map. apply map_ext. intros p.
  destruct (Z.eqb_spec (product_id p) pid) as [Heq|]; [|reflexivity].
  cbn [product_id]. symmetry. exact Heq.
Qed.

Lemma rate_loop_ids (ags : list (option ID)) : forall st : Store,
  map product_id (products (snd (rate_loop ags st)))
  = map product_id (products st).
Proof.
  unfold rate_loop.
  induction ags as [|a ags IH]; intros st; [reflexivity|].
  cbn [forEach]. unfold bind.
  destruct a as [agentId|]; [|reflexivity].
  pose proof (product_update_ids agentId
                (Z.of_nat (total_of st agentId)) (rate_of st agentId) st) as Hu.
  change (product_update agentId (Z.of_nat (total_of st agentId))
            (rate_of st agentId) st)
    with (updateAgentSuccessRate agentId st) in Hu.
  destruct (updateAgentSuccessRate agentId st) as [[u|e] st']; cbn [snd] in *.
  - rewrite IH. exact Hu.
  - exact Hu.
Qed.

Lemma apply_ids (st : Store) (op : Op) :
  keys_ok st ->
  map product_id (products (apply st op)) = map product_id (products st).
Proof.
  intros Hk.
  destruct op as [q ags|now cid aid tx|q a n s|t m|now t]; unfold apply.
  - rewrite apply_create_row. reflexivity.
  - rewrite (recordVote_eq st now cid aid tx Hk). cbv zeta.
    destruct (lookup st cid); reflexivity.
  - rewrite (updateTokenLaunch_eq st q a n s Hk).
    destruct (List.find _ (collaborations st)); reflexivity.
  - rewrite (updateMarketCap_eq st t m Hk).
    destruct (List.find _ (collaborations st)); reflexivity.
  - rewrite (markGraduated_eq st now t Hk).
    destruct (List.find _ (collaborations st)) as [c|]; [|reflexivity].
    pose proof (rate_loop_ids (agents c) st) as Hi.
    destruct (rate_loop (agents c) st) as [[u|e] st1]; exact Hi.
Qed.

Lemma profile_ids (st : Store) (a : ID) :
  is_Some (profile st a) <-> In a (map product_id (products st)).
Proof.
  rewrite profile_known. unfold known. rewrite existsb_exists, in_map_iff.
  split; intros (p & H1 & H2).
  - exists p. apply Z.eqb_eq in H2. split; assumption.
  - exists p. split; [exact H2 | apply Z.eqb_eq; exact H1].
Qed.

Lemma apply_profile (st : Store) (op : Op) (a : ID) :
  keys_ok st -> is_Some (profile (apply st op) a) <-> is_Some (profile st a).
Proof. intros Hk. rewrite !profile_ids, (apply_ids st op Hk). reflexivity. Qed.

(** ** Stored rows stay consistent *)

Lemma rows_ok_apply (st : Store) (op : Op) :
  keys_ok st ->
  (forall c, In c (collaborations st) -> row_ok c /\ agents_stored st c) ->
  forall c, In c (collaborations (apply st op)) ->
            row_ok c /\ agents_stored (apply st op) c.
Proof.
  intros Hk Hall c' Hin.
  destruct (apply_rows st op Hk) as (rows' & new & Heq & Hsteps & Hnew).
  rewrite Heq in Hin. apply in_app_or in Hin as [Hin|Hin].
  - apply In_lookup in Hin as [i Hi].
    destruct (Forall2_lookup_r _ _ _ _ _ Hsteps Hi) as (c & Hc & Hstep).
    assert (Hc' : In c (collaborations st)) by (apply In_lookup; eauto).
    destruct (Hall c Hc') as [Hok Hags]. split.
    + exact (row_step_ok c c' Hstep Hok).
    + intros a Ha. apply apply_profile; [exact Hk|]. apply Hags.
      destruct (row_step_extends c c' Hstep) as (_ & _ & <- & _). exact Ha.
  - destruct op as [q ags|now cid aid tx|q a n s|t m|now t];
      subst new; try contradiction.
    destruct Hin as [<-|[]]. split; [apply created_ok|].
    intros a Ha. apply apply_profile; [exact Hk|].
    cbn [created agents] in Ha. apply in_map_iff in Ha as (pid & Hp & _).
    destruct (profile st pid) as [p|] eqn:Hpr; [|discriminate].
    cbn in Hp. injection Hp as Hp.
    rewrite <- Hp, (profile_id st pid p Hpr), Hpr. eexists; reflexivity.
Qed.

Lemma rows_ok_reachable (ps : list Product) (ops : list Op) (c : Collaboration) :
  In c (collaborations (applyAll (initial ps) ops)) ->
  row_ok c /\ agents_stored (applyAll (initial ps) ops) c.
Proof.
  revert c. induction ops as [|op ops IH] using rev_ind; [intros c []|].
  rewrite applyAll_snoc. apply rows_ok_apply; [|exact IH].
  apply (well_formed_reachable ps ops).
Qed.

(** ** Rows and votes across a call *)




(** ** Further properties of the service *)

(** In every store reached through the service, every stored collaboration
    is consistent: its status is never FAILED; requiredVotes is the length of
    its agent list and votesReceived is not negative; while PENDING it has
    no token, is not graduated and (unless its quorum is empty) has fewer
    votes than required; while VOTING it has at least the required votes;
    ACTIVE needs a token address and COMPLETED implies graduated; graduated
    goes with a graduation date and a token address; the three token fields
    are set together; and every agent it lists is a stored product.  Hence
    findAll with a status returns the collaboration exactly for its own
    status, and findAll(FAILED) returns nothing. *)
Theorem stored_rows_consistent (ps : list Product) (ops : list Op)
    (c : Collaboration) :
  let st := applyAll (initial ps) ops in
  In c (collaborations st) ->
  row_ok c /\ agents_stored st c /\
  (forall s, exists l, fst (findAll (Some s) st) = Returned l /\
                       (In c l <-> s = status c)) /\
  fst (findAll (Some FAILED) st) = Returned [].
Proof.
  intros st Hin. destruct (rows_ok_reachable ps ops c Hin) as [Hok Hags].
  split; [exact Hok|]. split; [exact Hags|]. split.
  - intros s. eexists. split; [reflexivity|]. rewrite filter_In. split.
    + intros [_ Hs]. destruct (status c), s; first [reflexivity | discriminate].
    + intros ->. split; [exact Hin|]. destruct (status c); reflexivity.
  - unfold findAll. cbn [fst]. f_equal.
    destruct (List.filter _ (collaborations st)) as [|x l] eqn:Hf;
      [reflexivity|].
    assert (Hx : In x (x :: l)) by (left; reflexivity).
    rewrite <- Hf in Hx. apply filter_In in Hx as [Hx Hs].
    destruct (rows_ok_reachable ps ops x Hx) as [(Hnf & _) _].
    destruct (status x); first [discriminate | contradiction].
Qed.

(** A collaboration that was launched, graduated and then voted on. *)
Lemma stored_rows_consistent_witness :
  let st := applyAll (initial sample_products)
              [CreateCollaboration "q1" [1; 2; 3];
               UpdateTokenLaunch "q1" "0xA" "Alpha" "ALP";
               MarkGraduated 100 "0xA"; RecordVote 101 1 2 "0xaa"] in
  let c := mkCollaboration 1 "q1" [Some 1; Some 2; Some 3] COMPLETED
             (Some "0xA") (Some "Alpha") (Some "ALP") "0" true (Some 100) 1 3 in
  In c (collaborations st) /\ row_ok c.
Proof.
  refine ((fun H => conj H (proj1 (stored_rows_consistent sample_products
             [CreateCollaboration "q1" [1; 2; 3];
              UpdateTokenLaunch "q1" "0xA" "Alpha" "ALP";
              MarkGraduated 100 "0xA"; RecordVote 101 1 2 "0xaa"] _ H))) _).
  vm_compute. left. reflexivity.
Defined.





(** ** The Vote table *)




(** ** The statistics loop *)






Lemma reached_all (ags : list (option ID)) (a : ID) :
  all_found ags = true -> In (Some a) ags -> In a (reached ags).
Proof.
  unfold all_found.
  induction ags as [|[b|] ags IH]; cbn [reached forallb]; [intros _ []| |discriminate].
  intros Hall [Heq|H]; [left; congruence | right; exact (IH Hall H)].
Qed.




(** ** The figures written at graduation *)









(** ** The product table between graduations *)




(** ** Worked examples for the statements without a precondition *)





End ServiceExtras.
